(** * vuln-bank-mobile, security level [custom]: the SPKI pinning validator

    A shallow embedding of
      - [src/security/custom/httpClient.ts]            ([secureFetch], the JS latch),
      - [DataSyncManager.kt]                           ([ensureConfigSync], the decoys,
                                                        the metrics, the native latch),
      - [ConfigInterceptor.kt]                         ([intercept]),
    and the properties of the validation engine proved over it.

    Conventions.  Kotlin [Int] and [Long] are [Z] with the wrap-around written
    out; strings are [string]; byte arrays are [list byte].  A call that talks
    to the outside world (a TLS connection, a clock, [fetch]) takes what the
    outside world answered as an explicit observation argument, and every
    function returns, next to its result, the list of effects it performed, so
    that "performs no network operation" is a statement about that list.
    A React method runs its body on a thread of its own and JS awaits the
    promise; here operations are taken one at a time, each from call to
    settlement. *)

From Stdlib Require Import ZArith List Bool Lia.
From Stdlib.Strings Require Import String Ascii Byte.
Import ListNotations.
Local Open Scope string_scope.
Local Open Scope list_scope.
Local Open Scope Z_scope.

(* ================================================================== *)
(** * Part I: definitions *)
(* ================================================================== *)

(** ** The two library functions [computeSpkiHash] calls

    [MessageDigest.getInstance("SHA-256").digest] and
    [Base64.encodeToString(_, Base64.NO_WRAP)] belong to the platform; they are
    modelled after FIPS 180-4 and RFC 4648 so that fingerprints compute. *)
Module Crypto.

Definition w32 (z : Z) : Z := z mod 2 ^ 32.

Definition add32 (x y : Z) : Z := w32 (x + y).

Definition rotr (n x : Z) : Z :=
  Z.lor (Z.shiftr x n) (w32 (Z.shiftl x (32 - n))).

Definition not32 (x : Z) : Z := Z.lxor x (2 ^ 32 - 1).

Definition Ch (x y z : Z) : Z := Z.lxor (Z.land x y) (Z.land (not32 x) z).

Definition Maj (x y z : Z) : Z :=
  Z.lxor (Z.lxor (Z.land x y) (Z.land x z)) (Z.land y z).

Definition Sigma0 (x : Z) : Z :=
  Z.lxor (Z.lxor (rotr 2 x) (rotr 13 x)) (rotr 22 x).

Definition Sigma1 (x : Z) : Z :=
  Z.lxor (Z.lxor (rotr 6 x) (rotr 11 x)) (rotr 25 x).

Definition sigma0 (x : Z) : Z :=
  Z.lxor (Z.lxor (rotr 7 x) (rotr 18 x)) (Z.shiftr x 3).

Definition sigma1 (x : Z) : Z :=
  Z.lxor (Z.lxor (rotr 17 x) (rotr 19 x)) (Z.shiftr x 10).

(** The primes up to [bound], by trial division. *)
Definition primes_upto (bound : nat) : list Z :=
  filter (fun p => forallb (fun q => negb (p mod q =? 0) || (p <=? q))
                     (map Z.of_nat (seq 2 (Z.to_nat (Z.sqrt p)))))
         (map Z.of_nat (seq 2 (bound - 1))).

(** The integer cube root of [n], decided bit by bit below bit [k]. *)
Fixpoint cube_root_bits (k : nat) (n r : Z) : Z :=
  match k with
  | O => r
  | S k' =>
      let c := r + 2 ^ Z.of_nat k' in
      if c * c * c <=? n then cube_root_bits k' n c else cube_root_bits k' n r
  end.

Definition cube_root (n : Z) : Z := cube_root_bits 40 n 0.

(** Round constants: the first 32 bits of the fractional parts of the cube
    roots of the first 64 primes. *)
Definition K : list Z :=
  Eval vm_compute in
    map (fun p => w32 (cube_root (p * 2 ^ 96))) (primes_upto 311).

(** Initial hash value: the same of the square roots of the first 8 primes. *)
Definition H0 : list Z :=
  Eval vm_compute in
    map (fun p => w32 (Z.sqrt (p * 2 ^ 64))) (primes_upto 19).

Definition byte_val (b : byte) : Z := Z.of_N (Byte.to_N b).

(** Big-endian bytes of [z], [n] of them. *)
Fixpoint be_bytes (n : nat) (z : Z) : list Z :=
  match n with
  | O => []
  | S n' => (Z.shiftr z (8 * Z.of_nat n')) mod 256 :: be_bytes n' z
  end.

(** The message, a 1 bit, zeros up to 56 mod 64, the bit length on 8 bytes. *)
Definition pad (msg : list Z) : list Z :=
  let len := Z.of_nat (List.length msg) in
  let zeros := Z.to_nat ((55 - len) mod 64) in
  msg ++ [0x80] ++ repeat 0 zeros ++ be_bytes 8 (8 * len).

Fixpoint words_of_bytes (bs : list Z) : list Z :=
  match bs with
  | a :: b :: c :: d :: rest =>
      (Z.shiftl a 24 + Z.shiftl b 16 + Z.shiftl c 8 + d) :: words_of_bytes rest
  | _ => []
  end.

(** Blocks of 16 words; [fuel] bounds the number of blocks. *)
Fixpoint blocks (fuel : nat) (ws : list Z) : list (list Z) :=
  match fuel with
  | O => []
  | S fuel' =>
      match ws with
      | [] => []
      | _ => firstn 16 ws :: blocks fuel' (skipn 16 ws)
      end
  end.

(** The message schedule, most recent word first: [rev_w] holds
    W[t-1], W[t-2], ...; [n] more words are appended. *)
Fixpoint extend (n : nat) (rev_w : list Z) : list Z :=
  match n with
  | O => rev_w
  | S n' =>
      let w := add32 (add32 (sigma1 (nth 1 rev_w 0)) (nth 6 rev_w 0))
                     (add32 (sigma0 (nth 14 rev_w 0)) (nth 15 rev_w 0)) in
      extend n' (w :: rev_w)
  end.

Definition schedule (block : list Z) : list Z := rev (extend 48 (rev block)).

Record regs := Regs { ra : Z; rb : Z; rc : Z; rd : Z; re : Z; rf : Z; rg : Z; rh : Z }.

Definition round (r : regs) (kw : Z * Z) : regs :=
  let '(k, w) := kw in
  let t1 := add32 (add32 (add32 (rh r) (Sigma1 (re r))) (Ch (re r) (rf r) (rg r)))
                  (add32 k w) in
  let t2 := add32 (Sigma0 (ra r)) (Maj (ra r) (rb r) (rc r)) in
  Regs (add32 t1 t2) (ra r) (rb r) (rc r) (add32 (rd r) t1) (re r) (rf r) (rg r).

Definition regs_of (h : list Z) : regs :=
  Regs (nth 0 h 0) (nth 1 h 0) (nth 2 h 0) (nth 3 h 0)
       (nth 4 h 0) (nth 5 h 0) (nth 6 h 0) (nth 7 h 0).

Definition list_of (r : regs) : list Z :=
  [ra r; rb r; rc r; rd r; re r; rf r; rg r; rh r].

Definition compress (h : list Z) (block : list Z) : list Z :=
  let r := fold_left round (combine K (schedule block)) (regs_of h) in
  map (fun p => add32 (fst p) (snd p)) (combine h (list_of r)).

Definition sha256 (msg : list byte) : list Z :=
  let ws := words_of_bytes (pad (map byte_val msg)) in
  let h := fold_left compress (blocks (List.length ws) ws) H0 in
  flat_map (be_bytes 4) h.

(** RFC 4648 alphabet. *)
Definition alphabet : string :=
  "ABCDEFGHIJKLMNOPQRSTUVWXYZabcdefghijklmnopqrstuvwxyz0123456789+/".

Definition sextet (z : Z) : ascii :=
  match String.get (Z.to_nat (z mod 64)) alphabet with
  | Some c => c
  | None => "="%char
  end.

(** [Base64.NO_WRAP]: padded, no line terminators. *)
Fixpoint base64 (bs : list Z) : string :=
  match bs with
  | [] => EmptyString
  | [a] =>
      String (sextet (Z.shiftr a 2))
        (String (sextet (Z.shiftl (a mod 4) 4)) "==")
  | [a; b] =>
      String (sextet (Z.shiftr a 2))
        (String (sextet (Z.shiftl (a mod 4) 4 + Z.shiftr b 4))
           (String (sextet (Z.shiftl (b mod 16) 2)) "="))
  | a :: b :: c :: rest =>
      String (sextet (Z.shiftr a 2))
        (String (sextet (Z.shiftl (a mod 4) 4 + Z.shiftr b 4))
           (String (sextet (Z.shiftl (b mod 16) 2 + Z.shiftr c 6))
              (String (sextet c) (base64 rest))))
  end.

End Crypto.

Definition bytes_of_string (s : string) : list byte := list_byte_of_string s.

(** ** What the code uses of the JVM and of JavaScript *)
Module Jvm.

(** Kotlin [Int]: 32 bits, two's complement. *)
Definition int_wrap (z : Z) : Z := (z + 2 ^ 31) mod 2 ^ 32 - 2 ^ 31.

(** Kotlin [Long]: 64 bits, two's complement. *)
Definition long_wrap (z : Z) : Z := (z + 2 ^ 63) mod 2 ^ 64 - 2 ^ 63.

Definition long_sub (a b : Z) : Z := long_wrap (a - b).

(** [Long] division truncates toward zero. *)
Definition long_div (a b : Z) : Z := long_wrap (Z.quot a b).

(** Case mapping of the ASCII letters; every other character maps to
    itself.  [HttpUrl.host] is canonical ASCII. *)
Definition toUpperCase (c : ascii) : ascii :=
  let n := N_of_ascii c in
  if ((97 <=? n) && (n <=? 122))%N then ascii_of_N (n - 32) else c.

Definition toLowerCase (c : ascii) : ascii :=
  let n := N_of_ascii c in
  if ((65 <=? n) && (n <=? 90))%N then ascii_of_N (n + 32) else c.

(** One step of [String.regionMatches(ignoreCase = true, ...)]. *)
Definition char_equalsIgnoreCase (c1 c2 : ascii) : bool :=
  Ascii.eqb c1 c2
  || (let u1 := toUpperCase c1 in
      let u2 := toUpperCase c2 in
      Ascii.eqb u1 u2 || Ascii.eqb (toLowerCase u1) (toLowerCase u2)).

(** [a.equals(b, ignoreCase = true)]. *)
Fixpoint equalsIgnoreCase (a b : string) : bool :=
  match a, b with
  | EmptyString, EmptyString => true
  | String c1 a', String c2 b' =>
      char_equalsIgnoreCase c1 c2 && equalsIgnoreCase a' b'
  | _, _ => false
  end.

(** A thrown [java.lang.Exception]; [message] may be [null]. *)
Record Exception := { exn_message : option string }.

Definition IOException (msg : string) : Exception :=
  {| exn_message := Some msg |}.

(** A string template [${e.message}] prints [null] for a null message. *)
Definition template (m : option string) : string :=
  match m with Some s => s | None => "null" end.

(** A call that returns or throws. *)
Inductive Outcome (A : Type) :=
| Return (a : A)
| Throw (e : Exception).
Arguments Return {A} a.
Arguments Throw {A} e.

End Jvm.

Module Js.

(** [a || b] on a string that may be undefined: the empty string is falsy. *)
Definition or_else (a : option string) (b : string) : string :=
  match a with
  | Some EmptyString | None => b
  | Some s => s
  end.

(** [haystack.includes(needle)]. *)
Fixpoint includes (needle haystack : string) : bool :=
  String.prefix needle haystack
  || match haystack with
     | EmptyString => false
     | String _ rest => includes needle rest
     end.

(** A thrown value as [secureFetch] looks at it: [error?.message].
    [None] stands for a value without a message ([null], [undefined], a
    string, an object lacking the field). *)
Record Error := { message : option string }.

Definition new_Error (msg : string) : Error := {| message := Some msg |}.

(** [error?.message || error], as it prints inside a template; an [Error]
    whose message is empty prints as its name. *)
Definition message_or_error (e : Error) : string :=
  or_else (message e) "Error".

(** An async function's completion. *)
Inductive Completion (A : Type) :=
| Returns (a : A)
| Throws (e : Error).
Arguments Returns {A} a.
Arguments Throws {A} e.

End Js.

(** ** Effects *)

Record RequestInit := {
  init_method : option string;
  init_headers : list (string * string);
  init_body : option string
}.

Inductive Event :=
| NanoTime                                           (* System.nanoTime() *)
| CurrentTimeMillis                                  (* System.currentTimeMillis() *)
| SetOkHttpClientFactory (domain pinHash : string)   (* OkHttpClientProvider.setOkHttpClientFactory *)
| OpenConnection (url : string)                      (* URL(url).openConnection() *)
| Connect                                            (* connection.connect() *)
| ServerCertificates                                 (* connection.serverCertificates *)
| Disconnect                                         (* connection.disconnect() *)
| Digest (spki : list byte)                          (* MessageDigest.digest(spki) *)
| ChainProceed (host : string)                       (* chain.proceed(request) *)
| ReadHandshake                                      (* response.handshake *)
| PeerCertificates                                   (* handshake.peerCertificates *)
| CloseBody                                          (* response.body?.close() *)
| DateNow                                            (* Date.now() *)
| CallNative (method : string)                       (* DataSyncManager.<method>(...) from JS *)
| Fetch (url : string) (options : RequestInit).      (* fetch(url, options) *)

(** ** Certificates *)

(** [java.security.cert.X509Certificate]: the validator reads
    [cert.publicKey.encoded] and nothing else. *)
Record X509Certificate := { publicKey_encoded : list byte }.

(** [java.security.cert.Certificate], which [as? X509Certificate] tests. *)
Inductive Certificate :=
| X509 (cert : X509Certificate)
| NotX509.

(** [computeSpkiHash], the same text in both Kotlin classes. *)
Definition computeSpkiHash (cert : X509Certificate) : string :=
  let spki := publicKey_encoded cert in
  let hash := Crypto.sha256 spki in
  Crypto.base64 hash.

Import Jvm.

(** ** ConfigInterceptor.kt *)

Record Request := { url_host : string; url_path : string }.

Record Handshake := { peerCertificates : list Certificate }.

Record Response := {
  response_code : Z;
  handshake : option Handshake;      (* null on a cleartext connection *)
  has_body : bool                    (* response.body != null *)
}.

(** [Interceptor.Chain]: the request, and what the rest of the chain (the
    network) answers to it. *)
Record Chain := {
  chain_request : Request;
  chain_proceed : Request -> Outcome Response
}.

Record ConfigInterceptor := { pinnedDomain : string; pinnedHash : string }.

Definition intercept (self : ConfigInterceptor) (chain : Chain)
  : Outcome Response * list Event :=
  let request := chain_request chain in
  let host := url_host request in
  if negb (equalsIgnoreCase host (pinnedDomain self)) then
    (chain_proceed chain request, [ChainProceed host])
  else
    match chain_proceed chain request with
    | Throw e => (Throw e, [ChainProceed host])
    | Return response =>
        match handshake response with
        | None =>
            (Throw (IOException "DataSync: Configuration unavailable"),
             [ChainProceed host; ReadHandshake])
        | Some hs =>
            match peerCertificates hs with
            | [] =>
                (Throw (IOException "DataSync: Configuration missing"),
                 [ChainProceed host; ReadHandshake; PeerCertificates])
            | NotX509 :: _ =>
                (Throw (IOException "DataSync: Configuration format error"),
                 [ChainProceed host; ReadHandshake; PeerCertificates])
            | X509 leafCert :: _ =>
                let spkiHash := computeSpkiHash leafCert in
                let seen := [ChainProceed host; ReadHandshake; PeerCertificates;
                             Digest (publicKey_encoded leafCert)] in
                if negb (String.eqb spkiHash (pinnedHash self)) then
                  (Throw (IOException "DataSync: Configuration mismatch"),
                   seen ++ (if has_body response then [CloseBody] else []))
                else
                  (Return response, seen)
            end
        end
    end.

(** ** DataSyncManager.kt *)

(** The fields of the module, and the interceptor its factory puts into every
    OkHttp client React Native builds from then on. *)
Record DataSyncManager := {
  sessionIntegrity : bool;
  validationCount : Z;               (* Int *)
  lastValidationTimestamp : Z;       (* Long *)
  interceptorInstalled : bool;
  okHttpInterceptor : option ConfigInterceptor
}.

Definition DataSyncManager_new : DataSyncManager :=
  {| sessionIntegrity := true;
     validationCount := 0;
     lastValidationTimestamp := 0;
     interceptorInstalled := false;
     okHttpInterceptor := None |}.

(** [sessionIntegrity = false]. *)
Definition set_sessionIntegrity_false (s : DataSyncManager) : DataSyncManager :=
  {| sessionIntegrity := false;
     validationCount := validationCount s;
     lastValidationTimestamp := lastValidationTimestamp s;
     interceptorInstalled := interceptorInstalled s;
     okHttpInterceptor := okHttpInterceptor s |}.

(** [validationCount++; lastValidationTimestamp = System.currentTimeMillis()]. *)
Definition record_validation (now : Z) (s : DataSyncManager) : DataSyncManager :=
  {| sessionIntegrity := sessionIntegrity s;
     validationCount := int_wrap (validationCount s + 1);
     lastValidationTimestamp := now;
     interceptorInstalled := interceptorInstalled s;
     okHttpInterceptor := okHttpInterceptor s |}.

Definition installInterceptorIfNeeded (domain pinHash : string) (s : DataSyncManager)
  : DataSyncManager * list Event :=
  if interceptorInstalled s then (s, [])
  else
    let interceptor := {| pinnedDomain := domain; pinnedHash := pinHash |} in
    ({| sessionIntegrity := sessionIntegrity s;
        validationCount := validationCount s;
        lastValidationTimestamp := lastValidationTimestamp s;
        interceptorInstalled := true;
        okHttpInterceptor := Some interceptor |},
     [SetOkHttpClientFactory domain pinHash]).

(** The module once [installInterceptorIfNeeded] has run. *)
Definition installed_state (domain pinHash : string) (s : DataSyncManager)
  : DataSyncManager :=
  fst (installInterceptorIfNeeded domain pinHash s).

(** How a React Native promise is settled. *)
Inductive Settled (A : Type) :=
| Resolved (a : A)
| Rejected (code message : string).
Arguments Resolved {A} a.
Arguments Rejected {A} code message.

(** What a dedicated [HttpsURLConnection] meets. *)
Inductive ConnectionObs :=
| OpenThrows (e : Exception)          (* URL(..), openConnection() or the cast *)
| ConnectThrows (e : Exception)       (* connect(): DNS, refused, timeout, TLS *)
| CertificatesThrow (e : Exception)   (* serverCertificates *)
| Certificates (certs : list Certificate).

(** What one [ensureConfigSync] call observes of the world. *)
Record SyncObs := {
  nanoTime_start : Z;
  connection : ConnectionObs;
  nanoTime_check : Z;
  currentTimeMillis : Z
}.

(** Lower timing floor, in milliseconds. *)
Definition NATIVE_FLOOR_MS : Z := 50.

Definition elapsedMs (o : SyncObs) : Z :=
  long_div (long_sub (nanoTime_check o) (nanoTime_start o)) 1000000.

(** The [catch (e: Exception)] of [ensureConfigSync]. *)
Definition sync_failed (s : DataSyncManager) (e : Exception) (seen : list Event)
  : DataSyncManager * Settled bool * list Event :=
  (set_sessionIntegrity_false s,
   Rejected "CONFIG_ERROR" ("DataSync: Sync failed - " ++ template (exn_message e))%string,
   seen).

Definition ensureConfigSync (domain pinHash : string) (o : SyncObs) (s0 : DataSyncManager)
  : DataSyncManager * Settled bool * list Event :=
  let '(s, installed) := installInterceptorIfNeeded domain pinHash s0 in
  let opened := [NanoTime] ++ installed ++ [OpenConnection ("https://" ++ domain)%string] in
  match connection o with
  | OpenThrows e => sync_failed s e opened
  | ConnectThrows e => sync_failed s e (opened ++ [Connect; Disconnect])
  | CertificatesThrow e =>
      sync_failed s e (opened ++ [Connect; ServerCertificates; Disconnect])
  | Certificates certs =>
      let read := opened ++ [Connect; ServerCertificates] in
      match certs with
      | [] =>
          (set_sessionIntegrity_false s,
           Rejected "CONFIG_ERROR" "DataSync: No configuration available",
           read ++ [Disconnect])
      | NotX509 :: _ =>
          (set_sessionIntegrity_false s,
           Rejected "CONFIG_ERROR" "DataSync: Configuration format error",
           read ++ [Disconnect])
      | X509 leafCert :: _ =>
          let spkiHash := computeSpkiHash leafCert in
          let hashed := read ++ [Digest (publicKey_encoded leafCert)] in
          if negb (String.eqb spkiHash pinHash) then
            (set_sessionIntegrity_false s,
             Rejected "CONFIG_MISMATCH" "DataSync: Configuration mismatch",
             hashed ++ [Disconnect])
          else if elapsedMs o <? NATIVE_FLOOR_MS then
            (set_sessionIntegrity_false s,
             Rejected "CONFIG_ERROR" "DataSync: Sync timing anomaly",
             hashed ++ [NanoTime; Disconnect])
          else
            (record_validation (currentTimeMillis o) s,
             Resolved true,
             hashed ++ [NanoTime; CurrentTimeMillis; Disconnect])
      end
  end.

(** The decoys. *)
Definition validateCertificate (domain : string) (c : ConnectionObs) (s : DataSyncManager)
  : DataSyncManager * Settled bool * list Event :=
  let opened := [OpenConnection ("https://" ++ domain)%string] in
  match c with
  | OpenThrows _ => (s, Resolved true, opened)
  | ConnectThrows _ => (s, Resolved true, opened ++ [Connect; Disconnect])
  | CertificatesThrow _ =>
      (s, Resolved true, opened ++ [Connect; ServerCertificates; Disconnect])
  | Certificates certs =>
      (s, Resolved (negb (match certs with [] => true | _ => false end)),
       opened ++ [Connect; ServerCertificates; Disconnect])
  end.

Definition checkSSLPinning (s : DataSyncManager)
  : DataSyncManager * Settled bool * list Event :=
  (s, Resolved true, []).

Definition verifyCertificateChain (s : DataSyncManager)
  : DataSyncManager * Settled bool * list Event :=
  (s, Resolved true, []).

(** The map [getConnectionMetrics] resolves with.  [lastTimestamp] goes
    through [toDouble()], which is exact on every millisecond count below
    2^53. *)
Record Metrics := {
  metrics_validationCount : Z;
  metrics_lastTimestamp : Z;
  metrics_sessionIntegrity : bool
}.

Definition getConnectionMetrics (s : DataSyncManager)
  : DataSyncManager * Settled Metrics * list Event :=
  (s,
   Resolved {| metrics_validationCount := validationCount s;
               metrics_lastTimestamp := lastValidationTimestamp s;
               metrics_sessionIntegrity := sessionIntegrity s |},
   []).

(** ** src/security/custom/httpClient.ts *)

Import Js.

(** What [fetch] resolves with. *)
Record FetchResponse := {
  response_ok : bool;
  response_status : Z;
  response_headers : list (string * string);   (* in [Headers.forEach] order *)
  response_url : string;
  response_text : string
}.

Record SecureFetchResponse := {
  sf_ok : bool;
  sf_status : Z;
  sf_headers : list (string * string);          (* a JS object, its own properties *)
  sf_url : string;
  sf_text : string                              (* what [json()] and [text()] read *)
}.

(** A plain JS object with string values: its own properties, in the order
    the language enumerates them (array indices ascending, then the other
    keys as they were created). *)

Definition digit (c : ascii) : option N :=
  let n := N_of_ascii c in
  if ((48 <=? n) && (n <=? 57))%N then Some (n - 48)%N else None.

Fixpoint decimal (acc : N) (s : string) : option N :=
  match s with
  | EmptyString => Some acc
  | String c rest =>
      match digit c with
      | Some d => decimal (10 * acc + d)%N rest
      | None => None
      end
  end.

(** The array index a key stands for: the canonical decimal of an integer
    below 2^32 - 1. *)
Definition array_index (key : string) : option N :=
  match key with
  | EmptyString => None
  | String c rest =>
      if Ascii.eqb c "0" && negb (String.eqb rest EmptyString) then None
      else
        match decimal 0 key with
        | Some n => if (n <=? 4294967294)%N then Some n else None
        | None => None
        end
  end.

(** [Object.prototype.hasOwnProperty.call(obj, key)]. *)
Fixpoint has_key (key : string) (obj : list (string * string)) : bool :=
  match obj with
  | [] => false
  | (k, _) :: rest => String.eqb k key || has_key key rest
  end.

(** An existing property keeps its place. *)
Fixpoint replace_value (key value : string) (obj : list (string * string))
  : list (string * string) :=
  match obj with
  | [] => []
  | (k, v) :: rest =>
      if String.eqb k key then (k, value) :: rest
      else (k, v) :: replace_value key value rest
  end.

(** A new array index goes among the indices, in numeric order. *)
Fixpoint insert_index (i : N) (key value : string) (obj : list (string * string))
  : list (string * string) :=
  match obj with
  | [] => [(key, value)]
  | (k, v) :: rest =>
      match array_index k with
      | Some j =>
          if (j <? i)%N then (k, v) :: insert_index i key value rest
          else (key, value) :: (k, v) :: rest
      | None => (key, value) :: (k, v) :: rest
      end
  end.

(** [result[key] = value] for a string [value].  The key [__proto__] reaches
    the setter of [Object.prototype], which ignores a value that is neither
    an object nor [null]: no property is created. *)
Definition object_set (key value : string) (obj : list (string * string))
  : list (string * string) :=
  if String.eqb key "__proto__" then obj
  else if has_key key obj then replace_value key value obj
  else
    match array_index key with
    | Some i => insert_index i key value obj
    | None => obj ++ [(key, value)]
    end.

Definition headersToObject (headers : list (string * string)) : list (string * string) :=
  fold_left (fun result kv => object_set (fst kv) (snd kv) result) headers [].

(** The build-time constants of [@env], and whether
    [NativeModules.DataSyncManager] is defined. *)
Record Env := {
  SSL_PIN_DOMAIN : option string;
  SSL_PIN_HASH_1 : option string;
  DataSyncManager_defined : bool
}.

(** What one [secureFetch] call observes of the world. *)
Record FetchObs := {
  sync_obs : SyncObs;                 (* what the native call meets *)
  dateNow_start : Z;
  dateNow_end : Z;
  fetch_completion : Completion FetchResponse
}.

(** The module-level [let sessionCompromised] and the native module. *)
Record World := {
  sessionCompromised : bool;
  native : DataSyncManager
}.

Definition World_new : World :=
  {| sessionCompromised := false; native := DataSyncManager_new |}.

(** Upper timing floor, in milliseconds. *)
Definition JS_FLOOR_MS : Z := 30.

(** [error?.message?.includes('DataSync')]. *)
Definition mentions_DataSync (error : Error) : bool :=
  match message error with
  | Some m => includes "DataSync" m
  | None => false
  end.

(** The [if (DataSyncManager) { ... }] block of [secureFetch]; [Some e] when
    it throws.  A rejected promise reaches JS as an [Error] carrying the
    rejection message. *)
Definition nativeSpkiValidation (env : Env) (domain pinHash : string) (o : FetchObs) (w : World)
  : World * option Error * list Event :=
  if DataSyncManager_defined env then
    let called := [DateNow; CallNative "ensureConfigSync"] in
    match ensureConfigSync domain pinHash (sync_obs o) (native w) with
    | (n, Rejected _ msg, seen) =>
        ({| sessionCompromised := true; native := n |},
         Some (new_Error ("DataSync: Configuration sync failed - "
                          ++ message_or_error (new_Error msg))%string),
         called ++ seen)
    | (n, Resolved _, seen) =>
        let elapsed := dateNow_end o - dateNow_start o in
        if elapsed <? JS_FLOOR_MS then
          ({| sessionCompromised := true; native := n |},
           Some (new_Error "DataSync: Session integrity lost"),
           called ++ seen ++ [DateNow])
        else
          ({| sessionCompromised := sessionCompromised w; native := n |},
           None,
           called ++ seen ++ [DateNow])
    end
  else (w, None, []).

(** The [try { await fetch(url, options) ... } catch] block of [secureFetch],
    given how [fetch] completes. *)
Definition fetched (url : string) (options : RequestInit) (c : Completion FetchResponse)
    (w : World) : World * Completion SecureFetchResponse * list Event :=
  match c with
  | Returns response =>
      (w,
       Returns {| sf_ok := response_ok response;
                  sf_status := response_status response;
                  sf_headers := headersToObject (response_headers response);
                  sf_url := response_url response;
                  sf_text := response_text response |},
       [Fetch url options])
  | Throws error =>
      ((if mentions_DataSync error
        then {| sessionCompromised := true; native := native w |}
        else w),
       Throws error,
       [Fetch url options])
  end.

Definition secureFetch (env : Env) (url : string) (options : RequestInit)
    (o : FetchObs) (w : World)
  : World * Completion SecureFetchResponse * list Event :=
  if sessionCompromised w then
    (w, Throws (new_Error "DataSync: Session integrity lost"), [])
  else
    let domain := or_else (SSL_PIN_DOMAIN env) "vulnbank.org" in
    let pinHash := or_else (SSL_PIN_HASH_1 env) "" in
    match nativeSpkiValidation env domain pinHash o w with
    | (w1, Some e, seen) => (w1, Throws e, seen)
    | (w1, None, seen) =>
        let '(w2, c, fetching) := fetched url options (fetch_completion o) w1 in
        (w2, c, seen ++ fetching)
    end.

(** ** The validator as a machine

    Everything that can happen to the two latches: a [secureFetch], a direct
    call of one of the module's React methods, or a request of the primary
    transport reaching the interceptor the factory installed. *)

(** Whether the three decoys run their own body, or have been replaced by a
    hook that resolves with the success value at once. *)
Inductive DecoySurface := Genuine | Bypassed.

Inductive Op :=
| SecureFetch (url : string) (options : RequestInit) (o : FetchObs)
| EnsureConfigSync (domain pinHash : string) (o : SyncObs)
| Intercept (chain : Chain)
| ValidateCertificate (domain : string) (c : ConnectionObs)
| CheckSSLPinning
| VerifyCertificateChain
| GetConnectionMetrics.

Inductive Output :=
| SecureFetched (c : Completion SecureFetchResponse)
| Synced (r : Settled bool)
| Intercepted (r : Outcome Response)
| Decoyed (r : Settled bool)
| Measured (r : Settled Metrics).

Definition is_decoy (op : Op) : bool :=
  match op with
  | ValidateCertificate _ _ | CheckSSLPinning | VerifyCertificateChain => true
  | _ => false
  end.

Definition with_native (w : World) (r : DataSyncManager * Settled bool * list Event)
    (out : Settled bool -> Output)
  : World * Output * list Event :=
  let '(n, settled, seen) := r in
  ({| sessionCompromised := sessionCompromised w; native := n |}, out settled, seen).

Definition decoy (d : DecoySurface) (w : World)
    (body : DataSyncManager -> DataSyncManager * Settled bool * list Event)
  : World * Output * list Event :=
  match d with
  | Genuine => with_native w (body (native w)) Decoyed
  | Bypassed => (w, Decoyed (Resolved true), [])
  end.

Definition step (env : Env) (d : DecoySurface) (op : Op) (w : World)
  : World * Output * list Event :=
  match op with
  | SecureFetch url options o =>
      let '(w', c, seen) := secureFetch env url options o w in
      (w', SecureFetched c, seen)
  | EnsureConfigSync domain pinHash o =>
      with_native w (ensureConfigSync domain pinHash o (native w)) Synced
  | Intercept chain =>
      match okHttpInterceptor (native w) with
      | Some interceptor =>
          let '(r, seen) := intercept interceptor chain in
          (w, Intercepted r, seen)
      | None =>
          (w, Intercepted (chain_proceed chain (chain_request chain)),
           [ChainProceed (url_host (chain_request chain))])
      end
  | ValidateCertificate domain c => decoy d w (validateCertificate domain c)
  | CheckSSLPinning => decoy d w checkSSLPinning
  | VerifyCertificateChain => decoy d w verifyCertificateChain
  | GetConnectionMetrics =>
      let '(n, r, seen) := getConnectionMetrics (native w) in
      ({| sessionCompromised := sessionCompromised w; native := n |}, Measured r, seen)
  end.

(** A sequence of operations: the final world and what each operation gave. *)
Fixpoint run (env : Env) (d : DecoySurface) (ops : list Op) (w : World)
  : World * list Output :=
  match ops with
  | [] => (w, [])
  | op :: rest =>
      let '(w', out, _) := step env d op w in
      let '(w'', outs) := run env d rest w' in
      (w'', out :: outs)
  end.

(** What the operations other than the decoys gave. *)
Fixpoint trusted_outputs (ops : list Op) (outs : list Output) : list Output :=
  match ops, outs with
  | op :: ops', out :: outs' =>
      if is_decoy op then trusted_outputs ops' outs'
      else out :: trusted_outputs ops' outs'
  | _, _ => []
  end.

(** Either latch has left [Trusted]. *)
Definition tripped (w : World) : bool :=
  sessionCompromised w || negb (sessionIntegrity (native w)).

(** The error taxonomy of the validator; each name stands for the texts the
    code raises for it. *)
Inductive ValidationError :=
| NoCertificateAvailable
| MalformedCertificate
| PinMismatch
| TimingAnomaly
| SessionIntegrityLost
| NetworkFailure.

(** [Some rest] when [s] is [p] followed by [rest]. *)
Fixpoint strip_prefix (p s : string) : option string :=
  match p, s with
  | EmptyString, _ => Some s
  | String a p', String b s' =>
      if Ascii.eqb a b then strip_prefix p' s' else None
  | String _ _, EmptyString => None
  end.

(** The texts of [promise.reject] in [ensureConfigSync] and of the
    [IOException]s of [intercept]. *)
Definition kind_of_native_message (m : string) : option ValidationError :=
  if String.eqb m "DataSync: No configuration available" then Some NoCertificateAvailable
  else if String.eqb m "DataSync: Configuration unavailable" then Some NoCertificateAvailable
  else if String.eqb m "DataSync: Configuration missing" then Some NoCertificateAvailable
  else if String.eqb m "DataSync: Configuration format error" then Some MalformedCertificate
  else if String.eqb m "DataSync: Configuration mismatch" then Some PinMismatch
  else if String.eqb m "DataSync: Sync timing anomaly" then Some TimingAnomaly
  else if String.prefix "DataSync: Sync failed - " m then Some NetworkFailure
  else None.

(** The errors [secureFetch] throws: its own text, a wrapped rejection of the
    native call, or whatever [fetch] rejected with. *)
Definition kind_of_error (e : Error) : option ValidationError :=
  match message e with
  | None => None
  | Some m =>
      if String.eqb m "DataSync: Session integrity lost" then Some SessionIntegrityLost
      else match strip_prefix "DataSync: Configuration sync failed - " m with
           | Some inner => kind_of_native_message inner
           | None => kind_of_native_message m
           end
  end.

(** The pin set [secureFetch] configures: the one hash it hands to
    [ensureConfigSync]. *)
Definition configured_pin (env : Env) : string :=
  or_else (SSL_PIN_HASH_1 env) "".

Definition configured_pins (env : Env) : list string :=
  [configured_pin env].

Definition configured_domain (env : Env) : string :=
  or_else (SSL_PIN_DOMAIN env) "vulnbank.org".

(** ** Concrete scenarios

    A backend [bank.test] pinned to the key of [leaf_bank], and a proxy
    presenting [leaf_rogue]. *)

Definition leaf_bank : X509Certificate :=
  {| publicKey_encoded := bytes_of_string "bank.test leaf SPKI" |}.

Definition leaf_rogue : X509Certificate :=
  {| publicKey_encoded := bytes_of_string "rogue proxy SPKI" |}.

Definition pin_bank : string := "+3ke5PJF6EJrlhLPupI7hSyiHuHaUxRe9sHRhxgoreg=".

Definition env_bank : Env :=
  {| SSL_PIN_DOMAIN := Some "bank.test";
     SSL_PIN_HASH_1 := Some pin_bank;
     DataSyncManager_defined := true |}.


(** A handshake that takes [ms] milliseconds and presents [certs]. *)
Definition sync_in (ms : Z) (certs : list Certificate) : SyncObs :=
  {| nanoTime_start := 5000000000;
     connection := Certificates certs;
     nanoTime_check := 5000000000 + ms * 1000000;
     currentTimeMillis := 1700000000000 |}.

Definition sync_unreachable : SyncObs :=
  {| nanoTime_start := 5000000000;
     connection := ConnectThrows {| exn_message := Some "failed to connect to bank.test" |};
     nanoTime_check := 5000000000;
     currentTimeMillis := 1700000000000 |}.

Definition response_200 : FetchResponse :=
  {| response_ok := true;
     response_status := 200;
     response_headers := [("content-type", "application/json")];
     response_url := "https://bank.test/login";
     response_text := "{}" |}.

Definition get_request : RequestInit :=
  {| init_method := Some "GET"; init_headers := []; init_body := None |}.

(** A [secureFetch] whose native call sees [sync], returns to JS after [ms]
    milliseconds, and whose [fetch] completes with [c]. *)
Definition fetch_in (sync : SyncObs) (ms : Z) (c : Completion FetchResponse) : FetchObs :=
  {| sync_obs := sync;
     dateNow_start := 1700000000000;
     dateNow_end := 1700000000000 + ms;
     fetch_completion := c |}.

(** The primary transport answering a request with a TLS response whose peer
    chain is [certs]. *)
Definition chain_to (host : string) (certs : list Certificate) : Chain :=
  {| chain_request := {| url_host := host; url_path := "/login" |};
     chain_proceed := fun _ =>
       Return {| response_code := 200;
                 handshake := Some {| peerCertificates := certs |};
                 has_body := true |} |}.

Definition interceptor_bank : ConfigInterceptor :=
  {| pinnedDomain := "bank.test"; pinnedHash := pin_bank |}.

(** The world after one successful validated request. *)
Definition world_validated : World :=
  fst (run env_bank Genuine
         [SecureFetch "https://bank.test/login" get_request
            (fetch_in (sync_in 80 [X509 leaf_bank]) 85 (Returns response_200))]
         World_new).

(** A world whose two latches have tripped. *)
Definition world_compromised : World :=
  fst (run env_bank Genuine
         [SecureFetch "https://bank.test/login" get_request
            (fetch_in (sync_in 80 [X509 leaf_rogue]) 85 (Returns response_200))]
         World_new).

(** ** More of the same files *)

(** The own property [key] of [obj], if there is one. *)
Fixpoint object_get (key : string) (obj : list (string * string)) : option string :=
  match obj with
  | [] => None
  | (k, v) :: rest => if String.eqb k key then Some v else object_get key rest
  end.

(** Every character through [toUpperCase]. *)
Fixpoint uppercase (s : string) : string :=
  match s with
  | EmptyString => EmptyString
  | String c rest => String (toUpperCase c) (uppercase rest)
  end.

(** Every character there is. *)
Definition all_ascii : list ascii := map ascii_of_nat (seq 0 256).

(** An operation that reaches the native validation without [secureFetch]. *)
Definition calls_native_directly (op : Op) : bool :=
  match op with
  | EnsureConfigSync _ _ _ => true
  | _ => false
  end.

(** [isSecurityError(error)] of the custom client; [as_string] is what
    [String(error)] prints. *)
Definition isSecurityError (error : Error) (as_string : string) (w : World) : bool :=
  let errorMessage := or_else (message error) as_string in
  includes "DataSync" errorMessage
  || includes "Configuration mismatch" errorMessage
  || includes "Session integrity" errorMessage
  || includes "SSL" errorMessage
  || includes "certificate" errorMessage
  || includes "CERT" errorMessage
  || includes "Trust anchor" errorMessage
  || sessionCompromised w.

(** ** The API layer that calls [secureFetch] (api.ts) *)

(** A request body other than [null] and [undefined]: a [FormData], or any
    other value, given by whether it is truthy and by what [JSON.stringify]
    makes of it (a text, [undefined], or an exception). *)
Inductive RequestBody :=
| FormData (parts : string)
| JsValue (truthy : bool) (stringify : Completion (option string)).

Record RequestOptions := {
  ro_method : option string;                 (* undefined defaults to 'GET' *)
  ro_token : option string;
  ro_body : option RequestBody;
  ro_headers : list (string * string)        (* customHeaders, an object *)
}.







(** The headers [apiRequest] sends: the custom ones, then [Content-Type] for
    a truthy body that is not a [FormData], then [Authorization] for a
    token. *)
Definition request_headers (options : RequestOptions) : list (string * string) :=
  let headers := ro_headers options in
  let headers :=
    match ro_body options with
    | Some (JsValue true _) => object_set "Content-Type" "application/json" headers
    | _ => headers
    end in
  match ro_token options with
  | Some (String c t) =>
      object_set "Authorization" ("Bearer " ++ String c t)%string headers
  | _ => headers
  end.

(** [requestOptions.body], set for a truthy body only; [JSON.stringify] may
    throw. *)
Definition request_body (options : RequestOptions) : Completion (option string) :=
  match ro_body options with
  | Some (FormData parts) => Returns (Some parts)
  | Some (JsValue true stringify) => stringify
  | Some (JsValue false _) => Returns None
  | None => Returns None
  end.





(** ** src/security/library/httpClient.ts *)
Module Library.

Record Env := {
  SSL_PIN_DOMAIN : option string;
  SSL_PIN_HASH_1 : option string;
  SSL_PIN_HASH_2 : option string
}.

(** The module-level [let pinningInitialized] and [let pinningError];
    [None] is [null]. *)
Record State := {
  pinningInitialized : bool;
  pinningError : option Error
}.

Definition State_new : State :=
  {| pinningInitialized := false; pinningError := None |}.

Inductive Effect :=
| AddSslPinningErrorListener
| InitializeSslPinning (domain : string) (includeSubdomains : bool)
    (publicKeyHashes : list string)
| Fetch (url : string) (options : RequestInit).

Definition getSSLPins (env : Env) : list string :=
  let pins := [] in
  let pins :=
    match SSL_PIN_HASH_1 env with
    | Some (String c s) => pins ++ [String c s]
    | _ => pins
    end in
  match SSL_PIN_HASH_2 env with
  | Some (String c s) => pins ++ [String c s]
  | _ => pins
  end.

(** A value that was thrown or rejected with: [null], or anything else. *)
Inductive Thrown :=
| ThrownNull
| ThrownValue (e : Error).

(** What [pinningError = error] leaves in the variable. *)
Definition stored (t : Thrown) : option Error :=
  match t with
  | ThrownNull => None
  | ThrownValue e => Some e
  end.

(** How the [try] block of [initializePinning] ends. *)
Inductive InitCompletion :=
| ListenerThrows (t : Thrown)      (* addSslPinningErrorListener throws *)
| InitializeThrows (t : Thrown)    (* initializeSslPinning rejects *)
| Initialized.

Record InitObs := {
  isSslPinningAvailable : bool;
  init_completion : InitCompletion
}.

Definition set_initialized (error : option Error) : State :=
  {| pinningInitialized := true; pinningError := error |}.

(** [initializePinning] from the call to its [await]: the state it leaves,
    what it did, and whether it now waits for [initializeSslPinning].
    [pinningInitialized] is not written before that promise settles. *)
Definition beginInitializePinning (env : Env) (o : InitObs) (s : State)
  : State * list Effect * bool :=
  if pinningInitialized s then (s, [], false)
  else
    let pins := getSSLPins env in
    let domain := or_else (SSL_PIN_DOMAIN env) "vulnbank.org" in
    if (List.length pins <? 2)%nat then (set_initialized (pinningError s), [], false)
    else if negb (isSslPinningAvailable o) then (set_initialized (pinningError s), [], false)
    else
      match init_completion o with
      | ListenerThrows t =>
          (set_initialized (stored t), [AddSslPinningErrorListener], false)
      | _ =>
          (s, [AddSslPinningErrorListener; InitializeSslPinning domain true pins], true)
      end.

(** ... and from the settlement of that promise on: by then the state may be
    another, if something ran in between. *)
Definition resumeInitializePinning (c : InitCompletion) (s : State) : State :=
  match c with
  | InitializeThrows t => set_initialized (stored t)
  | _ => set_initialized (pinningError s)
  end.

(** A call of [initializePinning] with nothing in between. *)
Definition initializePinning (env : Env) (o : InitObs) (s : State) : State * list Effect :=
  let '(s1, done, waiting) := beginInitializePinning env o s in
  (if waiting then resumeInitializePinning (init_completion o) s1 else s1, done).

(** The callback given to [addSslPinningErrorListener]. *)
Definition onPinningError (serverHostname : string) (s : State) : State :=
  {| pinningInitialized := pinningInitialized s;
     pinningError :=
       Some (new_Error ("Certificate pinning failed for " ++ serverHostname)%string) |}.

Record FetchObs := {
  init_obs : InitObs;
  fetch_completion : Completion FetchResponse
}.

(** A call of [secureFetch] with nothing in between. *)
Definition secureFetch (env : Env) (url : string) (options : RequestInit)
    (o : FetchObs) (s : State)
  : State * Completion SecureFetchResponse * list Effect :=
  let '(s1, initializing) :=
    if negb (pinningInitialized s) then initializePinning env (init_obs o) s
    else (s, []) in
  match fetch_completion o with
  | Returns response =>
      (s1,
       Returns {| sf_ok := response_ok response;
                  sf_status := response_status response;
                  sf_headers := headersToObject (response_headers response);
                  sf_url := response_url response;
                  sf_text := response_text response |},
       initializing ++ [Fetch url options])
  | Throws error => (s1, Throws error, initializing ++ [Fetch url options])
  end.

Definition isSecurityError (error : Error) (as_string : string) (s : State) : bool :=
  let errorMessage := or_else (message error) as_string in
  includes "Certificate pinning" errorMessage
  || includes "SSL" errorMessage
  || includes "certificate" errorMessage
  || includes "CERT" errorMessage
  || includes "Trust anchor" errorMessage
  || includes "pin" errorMessage
  || match pinningError s with Some _ => true | None => false end.

(** What can happen to the module.  A call may run alone from start to
    settlement, or stop at its [await] and resume after other calls have
    run: [secureFetch] awaits [initializePinning] when the flag is unset,
    and otherwise goes straight to [fetch]. *)
Inductive Op :=
| InitializePinning (o : InitObs)
| SecureFetch (url : string) (options : RequestInit) (o : FetchObs)
| PinningErrorReported (serverHostname : string)
| BeginInitializePinning (o : InitObs)
| ResumeInitializePinning (c : InitCompletion)
| BeginSecureFetch (url : string) (options : RequestInit) (o : InitObs)
| ResumeSecureFetch (url : string) (options : RequestInit)
    (waited_for : option InitCompletion).

Definition step (env : Env) (op : Op) (s : State) : State * list Effect :=
  match op with
  | InitializePinning o => initializePinning env o s
  | SecureFetch url options o =>
      let '(s', _, done) := secureFetch env url options o s in (s', done)
  | PinningErrorReported serverHostname => (onPinningError serverHostname s, [])
  | BeginInitializePinning o =>
      let '(s', done, _) := beginInitializePinning env o s in (s', done)
  | ResumeInitializePinning c => (resumeInitializePinning c s, [])
  | BeginSecureFetch url options o =>
      if negb (pinningInitialized s) then
        let '(s', done, _) := beginInitializePinning env o s in (s', done)
      else (s, [Fetch url options])
  | ResumeSecureFetch url options waited_for =>
      (match waited_for with
       | Some c => resumeInitializePinning c s
       | None => s
       end,
       [Fetch url options])
  end.

Fixpoint run (env : Env) (ops : list Op) (s : State) : State * list Effect :=
  match ops with
  | [] => (s, [])
  | op :: rest =>
      let '(s', done) := step env op s in
      let '(s'', later) := run env rest s' in
      (s'', done ++ later)
  end.

Definition is_fetch (e : Effect) : bool :=
  match e with Fetch _ _ => true | _ => false end.

(** An operation that sets [pinningInitialized] whatever the state. *)
Definition settles (op : Op) : bool :=
  match op with
  | InitializePinning _ | SecureFetch _ _ _
  | ResumeInitializePinning _ | ResumeSecureFetch _ _ (Some _) => true
  | _ => false
  end.

Definition is_null (c : InitCompletion) : bool :=
  match c with
  | ListenerThrows ThrownNull | InitializeThrows ThrownNull => true
  | _ => false
  end.

(** An operation whose [catch] could store [null]. *)
Definition may_store_null (op : Op) : bool :=
  match op with
  | InitializePinning o | BeginInitializePinning o | BeginSecureFetch _ _ o =>
      is_null (init_completion o)
  | SecureFetch _ _ o => is_null (init_completion (init_obs o))
  | ResumeInitializePinning c | ResumeSecureFetch _ _ (Some c) => is_null c
  | _ => false
  end.

End Library.

(** ** metro.config.js: the resolver's redirect *)
Module Metro.

(** [s] without its first [n] characters. *)
Fixpoint drop (n : nat) (s : string) : string :=
  match n, s with
  | O, _ => s
  | S n', String _ rest => drop n' rest
  | S _, EmptyString => EmptyString
  end.

(** [s.replace(pattern, replacement)] for a string pattern and a replacement
    without [$]: the first occurrence is replaced. *)
Fixpoint replace (pattern replacement s : string) : string :=
  if String.prefix pattern s then
    (replacement ++ drop (String.length pattern) s)%string
  else
    match s with
    | EmptyString => EmptyString
    | String c rest => String c (replace pattern replacement rest)
    end.

(** The module name [resolveRequest] hands to [context.resolveRequest]. *)
Definition resolveRequest (securityImpl moduleName : string) : string :=
  if includes "/security/httpClient" moduleName
     && negb (includes ("/security/" ++ securityImpl ++ "/")%string moduleName)
  then replace "/security/httpClient"
         ("/security/" ++ securityImpl ++ "/httpClient")%string moduleName
  else moduleName.

End Metro.

(* ================================================================== *)
(** * Part II: theorems *)
(* ================================================================== *)

(** ** The platform functions on test vectors *)

Example sha256_abc :
  Crypto.base64 (Crypto.sha256 (bytes_of_string "abc"))
  = "ungWv48Bz+pBQUDeXa4iI7ADYaOWF3qctBD/YfIAFa0=".
Proof. vm_compute. reflexivity. Qed.

Example sha256_empty :
  Crypto.base64 (Crypto.sha256 []) = "47DEQpj8HBSa+/TImW+5JCeuQeRkm5NMpJWZG3hSuFU=".
Proof. vm_compute. reflexivity. Qed.

Example sha256_two_blocks :
  Crypto.base64 (Crypto.sha256 (repeat "a"%byte 56))
  = "s1Q5pKxvCUi21vnjxq8PX1kM4g8b3nCQ73lwaG7Gc4o=".
Proof. vm_compute. reflexivity. Qed.

Example base64_padding :
  Crypto.base64 (map Crypto.byte_val (bytes_of_string "foob")) = "Zm9vYg==".
Proof. vm_compute. reflexivity. Qed.

Example pin_bank_is_leaf_bank : computeSpkiHash leaf_bank = pin_bank.
Proof. vm_compute. reflexivity. Qed.

Example leaf_rogue_hash :
  computeSpkiHash leaf_rogue = "LGaC9jAwjhKY1b8vTdIXo1m484Rgi0Qx6dWP8CMKuwQ=".
Proof. vm_compute. reflexivity. Qed.

Example equalsIgnoreCase_folds_case :
  equalsIgnoreCase "Bank.TEST" "bank.test" = true
  /\ equalsIgnoreCase "bank.test.evil" "bank.test" = false
  /\ equalsIgnoreCase "api.bank.test" "bank.test" = false.
Proof. vm_compute. repeat split. Qed.

Example includes_DataSync :
  includes "DataSync" "java.io.IOException: DataSync: Configuration mismatch" = true
  /\ includes "DataSync" "Network request failed" = false
  /\ includes "DataSync" "datasync" = false.
Proof. vm_compute. repeat split. Qed.

Example world_validated_is :
  world_validated =
  {| sessionCompromised := false;
     native := {| sessionIntegrity := true;
                  validationCount := 1;
                  lastValidationTimestamp := 1700000000000;
                  interceptorInstalled := true;
                  okHttpInterceptor := Some interceptor_bank |} |}.
Proof. vm_compute. reflexivity. Qed.

Example world_compromised_is :
  world_compromised =
  {| sessionCompromised := true;
     native := {| sessionIntegrity := false;
                  validationCount := 0;
                  lastValidationTimestamp := 0;
                  interceptorInstalled := true;
                  okHttpInterceptor := Some interceptor_bank |} |}.
Proof. vm_compute. reflexivity. Qed.

(** ** Each operation against the two latches *)

Ltac break_match :=
  match goal with
  | |- context [match ?x with _ => _ end] => destruct x eqn:?
  end.

Ltac break_hyp H :=
  match type of H with
  | context [match ?x with _ => _ end] => destruct x eqn:?
  end.

Lemma install_keeps_fields (domain pinHash : string) (s : DataSyncManager) :
  let s' := fst (installInterceptorIfNeeded domain pinHash s) in
  sessionIntegrity s' = sessionIntegrity s
  /\ validationCount s' = validationCount s
  /\ lastValidationTimestamp s' = lastValidationTimestamp s.
Proof.
  unfold installInterceptorIfNeeded.
  destruct (interceptorInstalled s); simpl; auto.
Qed.

(** Unfolding [ensureConfigSync] once the interceptor question is settled. *)
Lemma ensureConfigSync_after_install (domain pinHash : string) (o : SyncObs) (s0 : DataSyncManager) :
  exists s installed,
    installInterceptorIfNeeded domain pinHash s0 = (s, installed)
    /\ sessionIntegrity s = sessionIntegrity s0
    /\ validationCount s = validationCount s0
    /\ lastValidationTimestamp s = lastValidationTimestamp s0.
Proof.
  destruct (installInterceptorIfNeeded domain pinHash s0) as [s installed] eqn:E.
  exists s, installed. split; [reflexivity|].
  pose proof (install_keeps_fields domain pinHash s0) as H.
  rewrite E in H. exact H.
Qed.

(** Every rejection of [ensureConfigSync] has written [false] to the latch. *)
Lemma ensureConfigSync_rejected_trips (domain pinHash : string) (o : SyncObs)
    (s s' : DataSyncManager) (code msg : string) (seen : list Event) :
  ensureConfigSync domain pinHash o s = (s', Rejected code msg, seen) ->
  sessionIntegrity s' = false.
Proof.
  unfold ensureConfigSync, sync_failed.
  destruct (installInterceptorIfNeeded domain pinHash s) as [s1 installed].
  intros H.
  repeat break_hyp H; inversion H; subst; reflexivity.
Qed.

(** [ensureConfigSync] never writes [true] to the latch. *)
Lemma ensureConfigSync_keeps_tripped (domain pinHash : string) (o : SyncObs)
    (s : DataSyncManager) :
  sessionIntegrity s = false ->
  sessionIntegrity (fst (fst (ensureConfigSync domain pinHash o s))) = false.
Proof.
  intros Hs.
  destruct (ensureConfigSync_after_install domain pinHash o s)
    as (s1 & installed & E & Hi & _ & _).
  unfold ensureConfigSync, sync_failed. rewrite E.
  repeat break_match; simpl; congruence.
Qed.

Lemma nativeSpkiValidation_keeps_tripped (env : Env) (domain pinHash : string)
    (o : FetchObs) (w : World) :
  let w' := fst (fst (nativeSpkiValidation env domain pinHash o w)) in
  (sessionCompromised w = true -> sessionCompromised w' = true)
  /\ (sessionIntegrity (native w) = false -> sessionIntegrity (native w') = false).
Proof.
  unfold nativeSpkiValidation.
  destruct (DataSyncManager_defined env); [|simpl; auto].
  pose proof (ensureConfigSync_keeps_tripped domain pinHash (sync_obs o) (native w)) as K.
  destruct (ensureConfigSync domain pinHash (sync_obs o) (native w)) as [[n r] seen].
  simpl in K.
  destruct r; [destruct (_ <? _)|]; simpl; auto.
Qed.

Lemma secureFetch_keeps_tripped (env : Env) (url : string) (options : RequestInit)
    (o : FetchObs) (w : World) :
  let w' := fst (fst (secureFetch env url options o w)) in
  (sessionCompromised w = true -> sessionCompromised w' = true)
  /\ (sessionIntegrity (native w) = false -> sessionIntegrity (native w') = false).
Proof.
  unfold secureFetch.
  destruct (sessionCompromised w) eqn:Hc; [simpl; auto|].
  pose proof (nativeSpkiValidation_keeps_tripped env
                (or_else (SSL_PIN_DOMAIN env) "vulnbank.org")
                (or_else (SSL_PIN_HASH_1 env) "") o w) as K.
  destruct (nativeSpkiValidation env _ _ o w) as [[w1 e] seen].
  simpl in K. destruct K as [_ K2].
  destruct e; [simpl; split; [discriminate|exact K2]|].
  unfold fetched.
  destruct (fetch_completion o) as [response|error];
    [simpl; split; [discriminate|exact K2]|].
  destruct (mentions_DataSync error); simpl; split; auto; discriminate.
Qed.

Lemma decoy_leaves_world (d : DecoySurface) (w : World)
    (body : DataSyncManager -> DataSyncManager * Settled bool * list Event) :
  (forall s, fst (fst (body s)) = s) ->
  fst (fst (decoy d w body)) = w.
Proof.
  intros Hb. unfold decoy, with_native.
  destruct d; [|reflexivity].
  specialize (Hb (native w)).
  destruct (body (native w)) as [[n r] seen]. simpl in *. subst n.
  destruct w; reflexivity.
Qed.

Lemma validateCertificate_leaves_state (domain : string) (c : ConnectionObs) (s : DataSyncManager) :
  fst (fst (validateCertificate domain c s)) = s.
Proof. destruct c; reflexivity. Qed.

(** No decoy writes anything, genuine or bypassed. *)
Lemma decoy_step_leaves_world (env : Env) (d : DecoySurface) (op : Op) (w : World) :
  is_decoy op = true -> fst (fst (step env d op w)) = w.
Proof.
  destruct op; simpl; try discriminate; intros _;
    apply decoy_leaves_world; intros s;
    [apply validateCertificate_leaves_state | reflexivity | reflexivity].
Qed.

(** A request through the interceptor writes nothing. *)
Lemma intercept_step_leaves_world (env : Env) (d : DecoySurface) (chain : Chain) (w : World) :
  fst (fst (step env d (Intercept chain) w)) = w.
Proof.
  simpl. destruct (okHttpInterceptor (native w)); [|reflexivity].
  destruct (intercept c chain); reflexivity.
Qed.

Lemma step_keeps_tripped (env : Env) (d : DecoySurface) (op : Op) (w : World) :
  let w' := fst (fst (step env d op w)) in
  (sessionCompromised w = true -> sessionCompromised w' = true)
  /\ (sessionIntegrity (native w) = false -> sessionIntegrity (native w') = false).
Proof.
  destruct op.
  - pose proof (secureFetch_keeps_tripped env url options o w) as K.
    simpl in *. destruct (secureFetch env url options o w) as [[w' c] seen]. exact K.
  - pose proof (ensureConfigSync_keeps_tripped domain pinHash o (native w)) as K.
    simpl. unfold with_native.
    destruct (ensureConfigSync domain pinHash o (native w)) as [[n r] seen].
    simpl in *. auto.
  - rewrite intercept_step_leaves_world. auto.
  - rewrite decoy_step_leaves_world by reflexivity. auto.
  - rewrite decoy_step_leaves_world by reflexivity. auto.
  - rewrite decoy_step_leaves_world by reflexivity. auto.
  - simpl. auto.
Qed.

Lemma run_cons (env : Env) (d : DecoySurface) (op : Op) (ops : list Op) (w : World) :
  run env d (op :: ops) w =
  (fst (run env d ops (fst (fst (step env d op w)))),
   snd (fst (step env d op w)) :: snd (run env d ops (fst (fst (step env d op w))))).
Proof.
  simpl. destruct (step env d op w) as [[w' out] seen]. simpl.
  destruct (run env d ops w'); reflexivity.
Qed.

(** C1.  The session-integrity flag is a one-way latch: along every sequence
    of operations ([secureFetch], [ensureConfigSync], interceptor runs, decoy
    calls, metrics reads), from every state, a compromised
    [sessionCompromised] stays [true] and a compromised [sessionIntegrity]
    stays [false]; nothing resets either, and tripping again changes
    nothing. *)
Theorem session_integrity_is_a_latch (env : Env) (d : DecoySurface) (ops : list Op) (w : World) :
  (sessionCompromised w = true ->
   sessionCompromised (fst (run env d ops w)) = true)
  /\ (sessionIntegrity (native w) = false ->
      sessionIntegrity (native (fst (run env d ops w))) = false).
Proof.
  revert w. induction ops as [|op ops IH]; intros w.
  - simpl. auto.
  - rewrite run_cons. simpl fst.
    destruct (step_keeps_tripped env d op w) as [K1 K2].
    destruct (IH (fst (fst (step env d op w)))) as [I1 I2].
    split; intros H; auto.
Qed.

Lemma session_integrity_is_a_latch_witness :
  sessionCompromised
    (fst (run env_bank Bypassed
            [CheckSSLPinning;
             EnsureConfigSync "bank.test" pin_bank (sync_in 80 [X509 leaf_bank]);
             Intercept (chain_to "bank.test" [X509 leaf_bank]);
             SecureFetch "https://bank.test/login" get_request
               (fetch_in (sync_in 80 [X509 leaf_bank]) 85 (Returns response_200));
             GetConnectionMetrics]
            world_compromised)) = true
  /\ sessionIntegrity
       (native
          (fst (run env_bank Bypassed
                  [CheckSSLPinning;
                   EnsureConfigSync "bank.test" pin_bank (sync_in 80 [X509 leaf_bank]);
                   Intercept (chain_to "bank.test" [X509 leaf_bank]);
                   SecureFetch "https://bank.test/login" get_request
                     (fetch_in (sync_in 80 [X509 leaf_bank]) 85 (Returns response_200));
                   GetConnectionMetrics]
                  world_compromised))) = false.
Proof.
  split.
  - apply (proj1 (session_integrity_is_a_latch env_bank Bypassed _ world_compromised)).
    vm_compute. reflexivity.
  - apply (proj2 (session_integrity_is_a_latch env_bank Bypassed _ world_compromised)).
    vm_compute. reflexivity.
Defined.

(** ** [secureFetch]: the guard and the missing native module *)

(** C2.  When [sessionCompromised] is already set, [secureFetch] throws
    'DataSync: Session integrity lost' at once: the world is unchanged and the
    list of effects is empty, so neither [ensureConfigSync] nor [fetch] is
    called, whatever certificate, clocks or response the call would have
    met. *)
Theorem compromised_session_fails_before_any_io
    (env : Env) (url : string) (options : RequestInit) (o : FetchObs) (w : World) :
  sessionCompromised w = true ->
  secureFetch env url options o w
  = (w, Throws (new_Error "DataSync: Session integrity lost"), []).
Proof.
  intros H. unfold secureFetch. rewrite H. reflexivity.
Qed.

Lemma compromised_session_fails_before_any_io_witness :
  sessionCompromised world_compromised = true
  /\ secureFetch env_bank "https://bank.test/login" get_request
       (fetch_in (sync_in 80 [X509 leaf_bank]) 85 (Returns response_200))
       world_compromised
     = (world_compromised, Throws (new_Error "DataSync: Session integrity lost"), []).
Proof.
  split.
  - vm_compute. reflexivity.
  - apply (compromised_session_fails_before_any_io env_bank). vm_compute. reflexivity.
Defined.



(** ** [intercept]: requests to other hosts *)

(** C10.  For a request whose host does not equal the pinned domain, case
    ignored, [intercept] is [chain.proceed(request)]: its result is the
    chain's, its only effect is that call (no handshake read, no certificate
    read, no digest), and the world it runs in is left as it was. *)
Theorem other_hosts_pass_through (self : ConfigInterceptor) (chain : Chain) :
  equalsIgnoreCase (url_host (chain_request chain)) (pinnedDomain self) = false ->
  intercept self chain
  = (chain_proceed chain (chain_request chain),
     [ChainProceed (url_host (chain_request chain))])
  /\ (forall env d w,
        okHttpInterceptor (native w) = Some self ->
        step env d (Intercept chain) w
        = (w, Intercepted (chain_proceed chain (chain_request chain)),
           [ChainProceed (url_host (chain_request chain))])).
Proof.
  intros H.
  assert (E : intercept self chain
              = (chain_proceed chain (chain_request chain),
                 [ChainProceed (url_host (chain_request chain))])).
  { unfold intercept. rewrite H. reflexivity. }
  split; [exact E|].
  intros env d w Hi. simpl. rewrite Hi, E. reflexivity.
Qed.

Lemma other_hosts_pass_through_witness :
  intercept interceptor_bank (chain_to "cdn.example" [X509 leaf_rogue])
  = (chain_proceed (chain_to "cdn.example" [X509 leaf_rogue])
       (chain_request (chain_to "cdn.example" [X509 leaf_rogue])),
     [ChainProceed "cdn.example"]).
Proof.
  apply (proj1 (other_hosts_pass_through interceptor_bank
                  (chain_to "cdn.example" [X509 leaf_rogue])
                  ltac:(vm_compute; reflexivity))).
Defined.

(** ** The verdicts of [ensureConfigSync] *)

Section Verdicts.

Variables (domain pinHash : string) (o : SyncObs) (s : DataSyncManager).

Ltac open_sync :=
  unfold ensureConfigSync, sync_failed, installed_state;
  destruct (installInterceptorIfNeeded domain pinHash s) as [s1 installed];
  simpl fst.

Lemma sync_exception (e : Exception) :
  connection o = OpenThrows e \/ connection o = ConnectThrows e
  \/ connection o = CertificatesThrow e ->
  exists seen,
    ensureConfigSync domain pinHash o s
    = (set_sessionIntegrity_false (installed_state domain pinHash s),
       Rejected "CONFIG_ERROR" ("DataSync: Sync failed - " ++ template (exn_message e))%string,
       seen).
Proof.
  open_sync. intros [H|[H|H]]; rewrite H; eexists; reflexivity.
Qed.

Lemma sync_no_certificate :
  connection o = Certificates [] ->
  exists seen,
    ensureConfigSync domain pinHash o s
    = (set_sessionIntegrity_false (installed_state domain pinHash s),
       Rejected "CONFIG_ERROR" "DataSync: No configuration available",
       seen).
Proof.
  open_sync. intros H; rewrite H; eexists; reflexivity.
Qed.

Lemma sync_not_x509 (rest : list Certificate) :
  connection o = Certificates (NotX509 :: rest) ->
  exists seen,
    ensureConfigSync domain pinHash o s
    = (set_sessionIntegrity_false (installed_state domain pinHash s),
       Rejected "CONFIG_ERROR" "DataSync: Configuration format error",
       seen).
Proof.
  open_sync. intros H; rewrite H; eexists; reflexivity.
Qed.

Lemma sync_mismatch (leaf : X509Certificate) (rest : list Certificate) :
  connection o = Certificates (X509 leaf :: rest) ->
  computeSpkiHash leaf <> pinHash ->
  exists seen,
    ensureConfigSync domain pinHash o s
    = (set_sessionIntegrity_false (installed_state domain pinHash s),
       Rejected "CONFIG_MISMATCH" "DataSync: Configuration mismatch",
       seen).
Proof.
  open_sync. intros H Hne; rewrite H.
  apply String.eqb_neq in Hne. rewrite Hne. eexists; reflexivity.
Qed.

Lemma sync_too_fast (leaf : X509Certificate) (rest : list Certificate) :
  connection o = Certificates (X509 leaf :: rest) ->
  computeSpkiHash leaf = pinHash ->
  elapsedMs o < NATIVE_FLOOR_MS ->
  exists seen,
    ensureConfigSync domain pinHash o s
    = (set_sessionIntegrity_false (installed_state domain pinHash s),
       Rejected "CONFIG_ERROR" "DataSync: Sync timing anomaly",
       seen).
Proof.
  open_sync. intros H He Ht; rewrite H.
  apply String.eqb_eq in He. rewrite He.
  apply Z.ltb_lt in Ht. rewrite Ht. eexists; reflexivity.
Qed.

Lemma sync_pinned (leaf : X509Certificate) (rest : list Certificate) :
  connection o = Certificates (X509 leaf :: rest) ->
  computeSpkiHash leaf = pinHash ->
  NATIVE_FLOOR_MS <= elapsedMs o ->
  exists seen,
    ensureConfigSync domain pinHash o s
    = (record_validation (currentTimeMillis o) (installed_state domain pinHash s), Resolved true, seen).
Proof.
  open_sync. intros H He Ht; rewrite H.
  apply String.eqb_eq in He. rewrite He.
  apply Z.ltb_ge in Ht. rewrite Ht. eexists; reflexivity.
Qed.

(** A resolution means the leaf's fingerprint is the pin, character for
    character, and the lower floor was met. *)
Lemma sync_resolved_only_if_pinned (n : DataSyncManager) (b : bool) (seen : list Event) :
  ensureConfigSync domain pinHash o s = (n, Resolved b, seen) ->
  exists leaf rest,
    connection o = Certificates (X509 leaf :: rest)
    /\ computeSpkiHash leaf = pinHash
    /\ NATIVE_FLOOR_MS <= elapsedMs o
    /\ b = true
    /\ n = record_validation (currentTimeMillis o) (installed_state domain pinHash s).
Proof.
  open_sync. intros H.
  destruct (connection o) as [e|e|e|certs]; try discriminate H.
  destruct certs as [|[leaf|] rest]; try discriminate H.
  destruct (String.eqb (computeSpkiHash leaf) pinHash) eqn:He; try discriminate H.
  destruct (elapsedMs o <? NATIVE_FLOOR_MS) eqn:Ht; try discriminate H.
  simpl in H. inversion H; subst.
  exists leaf, rest. repeat split.
  - apply String.eqb_eq; assumption.
  - apply Z.ltb_ge; assumption.
Qed.

Lemma installed_state_fields :
  sessionIntegrity (installed_state domain pinHash s) = sessionIntegrity s
  /\ validationCount (installed_state domain pinHash s) = validationCount s
  /\ lastValidationTimestamp (installed_state domain pinHash s) = lastValidationTimestamp s.
Proof. apply install_keeps_fields. Qed.

End Verdicts.

(** ** [secureFetch] after the native call *)

Section AfterNativeCall.

Variables (env : Env) (url : string) (options : RequestInit) (o : FetchObs) (w : World).

Hypothesis uncompromised : sessionCompromised w = false.
Hypothesis module_defined : DataSyncManager_defined env = true.

Lemma secureFetch_on_rejection (n : DataSyncManager) (code msg : string) (seen : list Event) :
  ensureConfigSync (configured_domain env) (configured_pin env) (sync_obs o) (native w)
  = (n, Rejected code msg, seen) ->
  secureFetch env url options o w
  = ({| sessionCompromised := true; native := n |},
     Throws (new_Error ("DataSync: Configuration sync failed - "
                        ++ message_or_error (new_Error msg))%string),
     [DateNow; CallNative "ensureConfigSync"] ++ seen).
Proof.
  intros H. unfold secureFetch, nativeSpkiValidation.
  rewrite uncompromised, module_defined.
  unfold configured_domain, configured_pin in H. rewrite H. reflexivity.
Qed.

Lemma secureFetch_on_resolution (n : DataSyncManager) (b : bool) (seen : list Event) :
  ensureConfigSync (configured_domain env) (configured_pin env) (sync_obs o) (native w)
  = (n, Resolved b, seen) ->
  secureFetch env url options o w
  = if dateNow_end o - dateNow_start o <? JS_FLOOR_MS then
      ({| sessionCompromised := true; native := n |},
       Throws (new_Error "DataSync: Session integrity lost"),
       [DateNow; CallNative "ensureConfigSync"] ++ seen ++ [DateNow])
    else
      let '(w2, c, fetching) :=
        fetched url options (fetch_completion o)
          {| sessionCompromised := false; native := n |} in
      (w2, c, ([DateNow; CallNative "ensureConfigSync"] ++ seen ++ [DateNow]) ++ fetching).
Proof.
  intros H. unfold secureFetch, nativeSpkiValidation.
  rewrite uncompromised, module_defined.
  unfold configured_domain, configured_pin in H. rewrite H.
  destruct (dateNow_end o - dateNow_start o <? JS_FLOOR_MS); reflexivity.
Qed.

End AfterNativeCall.

(** The [catch] around [fetch] trips [sessionCompromised] exactly on a
    message containing 'DataSync', and never touches the native module. *)
Lemma fetched_trips_exactly_on_DataSync
    (url : string) (options : RequestInit) (c : Completion FetchResponse) (w : World) :
  native (fst (fst (fetched url options c w))) = native w
  /\ sessionCompromised (fst (fst (fetched url options c w)))
     = (sessionCompromised w
        || match c with Throws e => mentions_DataSync e | Returns _ => false end).
Proof.
  destruct c as [r|e]; simpl.
  - rewrite orb_false_r. auto.
  - destruct (mentions_DataSync e); simpl.
    + rewrite orb_true_r. auto.
    + rewrite orb_false_r. auto.
Qed.

(** ** Pin matching *)

(** C4.  The pin set [secureFetch] configures is the single hash it hands to
    [ensureConfigSync], so membership is equality of strings, character for
    character.  For every leaf certificate whose SPKI fingerprint is in that
    set, once the 50 ms floor of the native path and the 30 ms floor of the
    JS caller are met, [ensureConfigSync] resolves [true], increments
    [validationCount] (an [Int]), stamps [lastValidationTimestamp], leaves
    [sessionIntegrity] as it was, and [secureFetch] goes on to [fetch].
    Conversely [ensureConfigSync] resolves only for a fingerprint equal to
    the pin: no prefix, no other spelling. *)
Theorem pinned_certificate_validates
    (env : Env) (url : string) (options : RequestInit) (o : FetchObs) (w : World)
    (leaf : X509Certificate) (rest : list Certificate) :
  sessionCompromised w = false ->
  DataSyncManager_defined env = true ->
  connection (sync_obs o) = Certificates (X509 leaf :: rest) ->
  In (computeSpkiHash leaf) (configured_pins env) ->
  NATIVE_FLOOR_MS <= elapsedMs (sync_obs o) ->
  JS_FLOOR_MS <= dateNow_end o - dateNow_start o ->
  (forall fingerprint,
      In fingerprint (configured_pins env) <-> fingerprint = configured_pin env)
  /\ (exists n seen,
        ensureConfigSync (configured_domain env) (configured_pin env)
          (sync_obs o) (native w)
        = (n, Resolved true, seen)
        /\ validationCount n = int_wrap (validationCount (native w) + 1)
        /\ lastValidationTimestamp n = currentTimeMillis (sync_obs o)
        /\ sessionIntegrity n = sessionIntegrity (native w)
        /\ exists called,
             secureFetch env url options o w
             = (let '(w2, c, fetching) :=
                  fetched url options (fetch_completion o)
                    {| sessionCompromised := false; native := n |} in
                (w2, c, called ++ fetching)))
  /\ (forall domain pinHash so s n b seen leaf' rest',
        connection so = Certificates (X509 leaf' :: rest') ->
        ensureConfigSync domain pinHash so s = (n, Resolved b, seen) ->
        computeSpkiHash leaf' = pinHash).
Proof.
  intros Hc Hd Hconn Hin Hnative Hjs.
  assert (Hmem : forall fingerprint,
             In fingerprint (configured_pins env) <-> fingerprint = configured_pin env).
  { intros fp. unfold configured_pins. simpl. split.
    - intros [H|[]]; auto.
    - intros H; left; auto. }
  split; [exact Hmem|]. split.
  - apply Hmem in Hin.
    destruct (sync_pinned (configured_domain env) (configured_pin env) (sync_obs o)
                (native w) leaf rest Hconn Hin Hnative) as [seen E].
    destruct (installed_state_fields (configured_domain env) (configured_pin env) (native w))
      as (Hi & Hv & _).
    eexists. exists seen. split; [exact E|].
    simpl. rewrite Hv, Hi. repeat split.
    eexists.
    rewrite (secureFetch_on_resolution env url options o w Hc Hd _ _ _ E).
    apply Z.ltb_ge in Hjs. rewrite Hjs. reflexivity.
  - intros domain pinHash so s n b seen leaf' rest' Hso E.
    destruct (sync_resolved_only_if_pinned domain pinHash so s n b seen E)
      as (leaf2 & rest2 & Hso2 & He & _).
    rewrite Hso in Hso2. inversion Hso2; subst. reflexivity.
Qed.

(** Scenario 1: pin and fingerprint agree, 80 ms: the counter goes to 1. *)
Lemma pinned_certificate_validates_witness :
  exists n seen,
    ensureConfigSync (configured_domain env_bank) (configured_pin env_bank)
      (sync_in 80 [X509 leaf_bank]) (native World_new)
    = (n, Resolved true, seen)
    /\ validationCount n = int_wrap (validationCount (native World_new) + 1)
    /\ lastValidationTimestamp n = 1700000000000
    /\ sessionIntegrity n = sessionIntegrity (native World_new)
    /\ exists called,
         secureFetch env_bank "https://bank.test/login" get_request
           (fetch_in (sync_in 80 [X509 leaf_bank]) 85 (Returns response_200)) World_new
         = (let '(w2, c, fetching) :=
              fetched "https://bank.test/login" get_request (Returns response_200)
                {| sessionCompromised := false; native := n |} in
            (w2, c, called ++ fetching)).
Proof.
  refine (proj1 (proj2 (pinned_certificate_validates env_bank "https://bank.test/login"
            get_request
            (fetch_in (sync_in 80 [X509 leaf_bank]) 85 (Returns response_200))
            World_new leaf_bank [] _ _ _ _ _ _))).
  - reflexivity.
  - reflexivity.
  - reflexivity.
  - left. vm_compute. reflexivity.
  - vm_compute. discriminate.
  - vm_compute. discriminate.
Defined.

(** A pin that is a proper prefix of the fingerprint, or the fingerprint in
    another case, is a mismatch. *)
Example prefix_and_case_variants_are_rejected :
  snd (fst (ensureConfigSync "bank.test" "+3ke5PJF6EJrlhLPupI7hSyiHuHaUxRe9sHRhxgore"
              (sync_in 80 [X509 leaf_bank]) DataSyncManager_new))
  = Rejected "CONFIG_MISMATCH" "DataSync: Configuration mismatch"
  /\ snd (fst (ensureConfigSync "bank.test" "+3KE5PJF6EJRLHLPUPI7HSYIHUHAUXRE9SHRHXGOREG="
                 (sync_in 80 [X509 leaf_bank]) DataSyncManager_new))
     = Rejected "CONFIG_MISMATCH" "DataSync: Configuration mismatch".
Proof. vm_compute. split; reflexivity. Qed.

Example validationCount_wraps_as_an_Int :
  validationCount (record_validation 0
     {| sessionIntegrity := true; validationCount := 2147483647;
        lastValidationTimestamp := 0; interceptorInstalled := true;
        okHttpInterceptor := None |}) = -2147483648.
Proof. vm_compute. reflexivity. Qed.

(** ** Pin mismatch on the two paths *)

(** C3, as the code has it.  For every leaf certificate whose SPKI
    fingerprint differs from the pin:
    - on the dedicated connection, [ensureConfigSync] rejects with
      CONFIG_MISMATCH 'DataSync: Configuration mismatch' and sets
      [sessionIntegrity] to [false]; [secureFetch] then sets
      [sessionCompromised] and throws;
    - on the primary transport, [intercept] throws the [IOException]
      'DataSync: Configuration mismatch' and writes no flag: the world of an
      interceptor run is left as it was;
    - [secureFetch] sets [sessionCompromised] for an error of its [fetch]
      exactly when the error's message contains 'DataSync', and leaves the
      native [sessionIntegrity] alone. *)
Theorem pin_mismatch_on_both_paths (env : Env) :
  (forall domain pinHash o s leaf rest,
      connection o = Certificates (X509 leaf :: rest) ->
      computeSpkiHash leaf <> pinHash ->
      exists s' seen,
        ensureConfigSync domain pinHash o s
        = (s', Rejected "CONFIG_MISMATCH" "DataSync: Configuration mismatch", seen)
        /\ sessionIntegrity s' = false)
  /\ (forall url options o w leaf rest,
        sessionCompromised w = false ->
        DataSyncManager_defined env = true ->
        connection (sync_obs o) = Certificates (X509 leaf :: rest) ->
        computeSpkiHash leaf <> configured_pin env ->
        exists w' seen,
          secureFetch env url options o w
          = (w',
             Throws (new_Error
               "DataSync: Configuration sync failed - DataSync: Configuration mismatch"),
             seen)
          /\ sessionCompromised w' = true
          /\ sessionIntegrity (native w') = false)
  /\ (forall self chain response hs leaf rest,
        equalsIgnoreCase (url_host (chain_request chain)) (pinnedDomain self) = true ->
        chain_proceed chain (chain_request chain) = Return response ->
        handshake response = Some hs ->
        peerCertificates hs = X509 leaf :: rest ->
        computeSpkiHash leaf <> pinnedHash self ->
        exists seen,
          intercept self chain
          = (Throw (IOException "DataSync: Configuration mismatch"), seen))
  /\ (forall d chain w, fst (fst (step env d (Intercept chain) w)) = w)
  /\ (forall url options error w,
        let w' := fst (fst (fetched url options (Throws error) w)) in
        sessionCompromised w' = (sessionCompromised w || mentions_DataSync error)
        /\ native w' = native w).
Proof.
  split; [|split; [|split; [|split]]].
  - intros domain pinHash o s leaf rest Hconn Hne.
    destruct (sync_mismatch domain pinHash o s leaf rest Hconn Hne) as [seen E].
    eexists. exists seen. split; [exact E|reflexivity].
  - intros url options o w leaf rest Hc Hd Hconn Hne.
    destruct (sync_mismatch (configured_domain env) (configured_pin env) (sync_obs o)
                (native w) leaf rest Hconn Hne) as [seen E].
    rewrite (secureFetch_on_rejection env url options o w Hc Hd _ _ _ _ E).
    eexists. eexists. split; [reflexivity|]. split; reflexivity.
  - intros self chain response hs leaf rest Hhost Hp Hh Hcerts Hne.
    unfold intercept. rewrite Hhost, Hp, Hh, Hcerts. simpl.
    apply String.eqb_neq in Hne. rewrite Hne. simpl.
    eexists; reflexivity.
  - intros d chain w. apply intercept_step_leaves_world.
  - intros url options error w.
    destruct (fetched_trips_exactly_on_DataSync url options (Throws error) w) as [Hn Hs].
    split; assumption.
Qed.

Lemma pin_mismatch_on_both_paths_witness :
  (exists s' seen,
      ensureConfigSync "bank.test" pin_bank (sync_in 80 [X509 leaf_rogue]) DataSyncManager_new
      = (s', Rejected "CONFIG_MISMATCH" "DataSync: Configuration mismatch", seen)
      /\ sessionIntegrity s' = false)
  /\ (exists seen,
        intercept interceptor_bank (chain_to "bank.test" [X509 leaf_rogue])
        = (Throw (IOException "DataSync: Configuration mismatch"), seen)).
Proof.
  split.
  - apply (proj1 (pin_mismatch_on_both_paths env_bank) "bank.test" pin_bank
             (sync_in 80 [X509 leaf_rogue]) DataSyncManager_new leaf_rogue []).
    + reflexivity.
    + vm_compute. discriminate.
  - apply (proj1 (proj2 (proj2 (pin_mismatch_on_both_paths env_bank)))
             interceptor_bank (chain_to "bank.test" [X509 leaf_rogue])
             {| response_code := 200;
                handshake := Some {| peerCertificates := [X509 leaf_rogue] |};
                has_body := true |}
             {| peerCertificates := [X509 leaf_rogue] |} leaf_rogue []).
    + vm_compute. reflexivity.
    + reflexivity.
    + reflexivity.
    + reflexivity.
    + vm_compute. discriminate.
Defined.

(** C3 as worded fails on the interceptor path.  In the world a validated
    request leaves behind, a request to the pinned domain meets the key of
    [leaf_rogue]: the interceptor throws the mismatch, and neither latch has
    moved; the metrics still report the session as intact. *)
Lemma interceptor_mismatch_trips_no_flag :
  computeSpkiHash leaf_rogue <> pinnedHash interceptor_bank
  /\ step env_bank Genuine (Intercept (chain_to "bank.test" [X509 leaf_rogue])) world_validated
     = (world_validated,
        Intercepted (Throw (IOException "DataSync: Configuration mismatch")),
        [ChainProceed "bank.test"; ReadHandshake; PeerCertificates;
         Digest (publicKey_encoded leaf_rogue); CloseBody])
  /\ tripped world_validated = false
  /\ snd (fst (getConnectionMetrics (native world_validated)))
     = Resolved {| metrics_validationCount := 1;
                   metrics_lastTimestamp := 1700000000000;
                   metrics_sessionIntegrity := true |}.
Proof.
  split; [vm_compute; discriminate|].
  split; [vm_compute; reflexivity|].
  split; vm_compute; reflexivity.
Qed.

(** ** Missing and undecodable leaf certificates *)

(** C8, as the code has it.  An empty chain makes [ensureConfigSync] reject
    with 'DataSync: No configuration available' and [intercept] throw
    'DataSync: Configuration missing'; a leaf that is not an
    [X509Certificate] makes both raise 'DataSync: Configuration format
    error'.  On the dedicated connection the rejection sets
    [sessionIntegrity] to [false], and [secureFetch] then sets
    [sessionCompromised].  The interceptor writes no flag; [secureFetch] sets
    [sessionCompromised] for an error of its [fetch] exactly when the message
    contains 'DataSync'. *)
Theorem missing_or_undecodable_leaf_on_both_paths (env : Env) :
  (forall domain pinHash o s,
      connection o = Certificates [] ->
      exists s' seen,
        ensureConfigSync domain pinHash o s
        = (s', Rejected "CONFIG_ERROR" "DataSync: No configuration available", seen)
        /\ sessionIntegrity s' = false)
  /\ (forall domain pinHash o s rest,
        connection o = Certificates (NotX509 :: rest) ->
        exists s' seen,
          ensureConfigSync domain pinHash o s
          = (s', Rejected "CONFIG_ERROR" "DataSync: Configuration format error", seen)
          /\ sessionIntegrity s' = false)
  /\ (forall url options o w,
        sessionCompromised w = false ->
        DataSyncManager_defined env = true ->
        (connection (sync_obs o) = Certificates []
         \/ exists rest, connection (sync_obs o) = Certificates (NotX509 :: rest)) ->
        exists w' e seen,
          secureFetch env url options o w = (w', Throws e, seen)
          /\ sessionCompromised w' = true
          /\ sessionIntegrity (native w') = false)
  /\ (forall self chain response hs,
        equalsIgnoreCase (url_host (chain_request chain)) (pinnedDomain self) = true ->
        chain_proceed chain (chain_request chain) = Return response ->
        handshake response = Some hs ->
        (peerCertificates hs = [] ->
         exists seen,
           intercept self chain
           = (Throw (IOException "DataSync: Configuration missing"), seen))
        /\ (forall rest,
              peerCertificates hs = NotX509 :: rest ->
              exists seen,
                intercept self chain
                = (Throw (IOException "DataSync: Configuration format error"), seen)))
  /\ (forall d chain w, fst (fst (step env d (Intercept chain) w)) = w)
  /\ (forall url options error w,
        let w' := fst (fst (fetched url options (Throws error) w)) in
        sessionCompromised w' = (sessionCompromised w || mentions_DataSync error)
        /\ native w' = native w).
Proof.
  split; [|split; [|split; [|split; [|split]]]].
  - intros domain pinHash o s Hconn.
    destruct (sync_no_certificate domain pinHash o s Hconn) as [seen E].
    eexists. exists seen. split; [exact E|reflexivity].
  - intros domain pinHash o s rest Hconn.
    destruct (sync_not_x509 domain pinHash o s rest Hconn) as [seen E].
    eexists. exists seen. split; [exact E|reflexivity].
  - intros url options o w Hc Hd [Hconn|[rest Hconn]].
    + destruct (sync_no_certificate (configured_domain env) (configured_pin env)
                  (sync_obs o) (native w) Hconn) as [seen E].
      rewrite (secureFetch_on_rejection env url options o w Hc Hd _ _ _ _ E).
      do 3 eexists. split; [reflexivity|]. split; reflexivity.
    + destruct (sync_not_x509 (configured_domain env) (configured_pin env)
                  (sync_obs o) (native w) rest Hconn) as [seen E].
      rewrite (secureFetch_on_rejection env url options o w Hc Hd _ _ _ _ E).
      do 3 eexists. split; [reflexivity|]. split; reflexivity.
  - intros self chain response hs Hhost Hp Hh. split.
    + intros Hcerts. unfold intercept. rewrite Hhost, Hp, Hh, Hcerts. simpl.
      eexists; reflexivity.
    + intros rest Hcerts. unfold intercept. rewrite Hhost, Hp, Hh, Hcerts. simpl.
      eexists; reflexivity.
  - intros d chain w. apply intercept_step_leaves_world.
  - intros url options error w.
    destruct (fetched_trips_exactly_on_DataSync url options (Throws error) w) as [Hn Hs].
    split; assumption.
Qed.

Lemma missing_or_undecodable_leaf_on_both_paths_witness :
  (exists s' seen,
      ensureConfigSync "bank.test" pin_bank (sync_in 80 []) DataSyncManager_new
      = (s', Rejected "CONFIG_ERROR" "DataSync: No configuration available", seen)
      /\ sessionIntegrity s' = false)
  /\ (exists s' seen,
        ensureConfigSync "bank.test" pin_bank (sync_in 80 [NotX509]) DataSyncManager_new
        = (s', Rejected "CONFIG_ERROR" "DataSync: Configuration format error", seen)
        /\ sessionIntegrity s' = false).
Proof.
  split.
  - apply (proj1 (missing_or_undecodable_leaf_on_both_paths env_bank)). reflexivity.
  - apply (proj1 (proj2 (missing_or_undecodable_leaf_on_both_paths env_bank))
             "bank.test" pin_bank (sync_in 80 [NotX509]) DataSyncManager_new []).
    reflexivity.
Defined.

(** C8 as worded fails on the interceptor path.  The pinned domain answers
    with an empty peer chain, then with a leaf that is not X.509: the
    interceptor throws, and neither latch has moved. *)
Lemma interceptor_missing_leaf_trips_no_flag :
  step env_bank Genuine (Intercept (chain_to "bank.test" [])) world_validated
  = (world_validated,
     Intercepted (Throw (IOException "DataSync: Configuration missing")),
     [ChainProceed "bank.test"; ReadHandshake; PeerCertificates])
  /\ step env_bank Genuine (Intercept (chain_to "bank.test" [NotX509])) world_validated
     = (world_validated,
        Intercepted (Throw (IOException "DataSync: Configuration format error")),
        [ChainProceed "bank.test"; ReadHandshake; PeerCertificates])
  /\ tripped world_validated = false.
Proof.
  split; [vm_compute; reflexivity|].
  split; vm_compute; reflexivity.
Qed.

(** ** Network failures *)

(** C5, as the code has it.  On the dedicated connection every exception
    (opening, connecting, reading the certificates) makes [ensureConfigSync]
    reject with 'DataSync: Sync failed - ...' and set [sessionIntegrity] to
    [false]; indeed every rejection of [ensureConfigSync] has set it, and
    [secureFetch] then sets [sessionCompromised].  A failure of the [fetch]
    itself trips [sessionCompromised] exactly when its message contains
    'DataSync'; any other is rethrown with both flags as the validation left
    them.  So whenever [secureFetch] throws from an uncompromised world,
    either [sessionCompromised] is now set, or the error is the one [fetch]
    rejected with and does not mention 'DataSync'.  The last two parts say it
    of the [fetch] itself: once the validation has passed, or with no native
    module, [secureFetch] rethrows the error of [fetch] as it is, leaves
    [sessionCompromised] equal to whether the message contains 'DataSync',
    and leaves [sessionIntegrity] as it was before the call. *)
Theorem failures_that_trip_the_latch (env : Env) :
  (forall domain pinHash o s e,
      connection o = OpenThrows e \/ connection o = ConnectThrows e
      \/ connection o = CertificatesThrow e ->
      exists s' seen,
        ensureConfigSync domain pinHash o s
        = (s',
           Rejected "CONFIG_ERROR"
             ("DataSync: Sync failed - " ++ template (exn_message e))%string,
           seen)
        /\ sessionIntegrity s' = false)
  /\ (forall domain pinHash o s s' code msg seen,
        ensureConfigSync domain pinHash o s = (s', Rejected code msg, seen) ->
        sessionIntegrity s' = false)
  /\ (forall url options o w n code msg seen,
        sessionCompromised w = false ->
        DataSyncManager_defined env = true ->
        ensureConfigSync (configured_domain env) (configured_pin env)
          (sync_obs o) (native w)
        = (n, Rejected code msg, seen) ->
        exists w' e seen',
          secureFetch env url options o w = (w', Throws e, seen')
          /\ sessionCompromised w' = true
          /\ sessionIntegrity (native w') = false)
  /\ (forall url options o w w' e seen,
        sessionCompromised w = false ->
        secureFetch env url options o w = (w', Throws e, seen) ->
        sessionCompromised w' = true
        \/ (fetch_completion o = Throws e
            /\ mentions_DataSync e = false
            /\ sessionCompromised w' = false))
  /\ (forall url options o w n b seen error,
        sessionCompromised w = false ->
        DataSyncManager_defined env = true ->
        ensureConfigSync (configured_domain env) (configured_pin env)
          (sync_obs o) (native w)
        = (n, Resolved b, seen) ->
        JS_FLOOR_MS <= dateNow_end o - dateNow_start o ->
        fetch_completion o = Throws error ->
        sessionIntegrity n = sessionIntegrity (native w)
        /\ exists seen',
             secureFetch env url options o w
             = ({| sessionCompromised := mentions_DataSync error; native := n |},
                Throws error, seen'))
  /\ (forall url options o w error,
        sessionCompromised w = false ->
        DataSyncManager_defined env = false ->
        fetch_completion o = Throws error ->
        secureFetch env url options o w
        = ({| sessionCompromised := mentions_DataSync error; native := native w |},
           Throws error, [Fetch url options])).
Proof.
  split; [|split; [|split; [|split; [|split]]]].
  - intros domain pinHash o s e H.
    destruct (sync_exception domain pinHash o s e H) as [seen E].
    eexists. exists seen. split; [exact E|reflexivity].
  - intros domain pinHash o s s' code msg seen E.
    eapply ensureConfigSync_rejected_trips; eassumption.
  - intros url options o w n code msg seen Hc Hd E.
    rewrite (secureFetch_on_rejection env url options o w Hc Hd _ _ _ _ E).
    do 3 eexists. split; [reflexivity|]. split; [reflexivity|].
    simpl. eapply ensureConfigSync_rejected_trips; eassumption.
  - intros url options o w w' e seen Hc E.
    unfold secureFetch in E. rewrite Hc in E.
    unfold nativeSpkiValidation in E.
    destruct (DataSyncManager_defined env).
    + destruct (ensureConfigSync _ _ (sync_obs o) (native w)) as [[n r] seen0].
      destruct r as [b|code msg].
      * destruct (dateNow_end o - dateNow_start o <? JS_FLOOR_MS).
        -- inversion E; subst. left; reflexivity.
        -- unfold fetched in E.
           destruct (fetch_completion o) as [response|error]; [discriminate E|].
           destruct (mentions_DataSync error) eqn:Hm; inversion E; subst.
           ++ left; reflexivity.
           ++ right. repeat split; auto.
      * inversion E; subst. left; reflexivity.
    + unfold fetched in E.
      destruct (fetch_completion o) as [response|error]; [discriminate E|].
      destruct (mentions_DataSync error) eqn:Hm; inversion E; subst.
      * left; reflexivity.
      * right. repeat split; auto.
  - intros url options o w n b seen error Hc Hd E Hjs Hf. split.
    + destruct (sync_resolved_only_if_pinned _ _ _ _ _ _ _ E)
        as (_ & _ & _ & _ & _ & _ & Hn).
      destruct (installed_state_fields (configured_domain env) (configured_pin env)
                  (native w)) as (Hi & _ & _).
      subst n. simpl. exact Hi.
    + rewrite (secureFetch_on_resolution env url options o w Hc Hd n b seen E).
      apply Z.ltb_ge in Hjs. rewrite Hjs, Hf. unfold fetched.
      destruct (mentions_DataSync error); eexists; reflexivity.
  - intros url options o w error Hc Hd Hf.
    unfold secureFetch, nativeSpkiValidation. rewrite Hc, Hd, Hf. unfold fetched.
    destruct (mentions_DataSync error); [reflexivity|].
    destruct w as [c n]. simpl in Hc. subst c. reflexivity.
Qed.

Lemma failures_that_trip_the_latch_witness :
  exists s' seen,
    ensureConfigSync "bank.test" pin_bank sync_unreachable DataSyncManager_new
    = (s',
       Rejected "CONFIG_ERROR" "DataSync: Sync failed - failed to connect to bank.test",
       seen)
    /\ sessionIntegrity s' = false.
Proof.
  apply (proj1 (failures_that_trip_the_latch env_bank) "bank.test" pin_bank sync_unreachable
           DataSyncManager_new {| exn_message := Some "failed to connect to bank.test" |}).
  right. left. reflexivity.
Defined.

(** C5 as worded fails at the [fetch].  The validation passes (matching pin,
    80 ms and 85 ms), then the request itself fails on the network:
    [secureFetch] rethrows, and neither latch has moved. *)
Lemma network_failure_of_fetch_trips_no_flag :
  secureFetch env_bank "https://bank.test/login" get_request
    (fetch_in (sync_in 80 [X509 leaf_bank]) 85
       (Throws (new_Error "Network request failed")))
    World_new
  = (world_validated,
     Throws (new_Error "Network request failed"),
     [DateNow; CallNative "ensureConfigSync"; NanoTime;
      SetOkHttpClientFactory "bank.test" pin_bank;
      OpenConnection "https://bank.test"; Connect; ServerCertificates;
      Digest (publicKey_encoded leaf_bank); NanoTime; CurrentTimeMillis; Disconnect;
      DateNow; Fetch "https://bank.test/login" get_request])
  /\ tripped world_validated = false.
Proof.
  split; vm_compute; reflexivity.
Qed.

(** ** The timing floors *)

(** C6, as the code has it.  The floors are 50 ms inside [ensureConfigSync]
    and 30 ms around it in [secureFetch], each compared with a strict [<].
    With the leaf's fingerprint equal to the pin, [ensureConfigSync] rejects
    with 'DataSync: Sync timing anomaly' and sets [sessionIntegrity] to
    [false] when its elapsed time is below 50, and resolves otherwise.  After
    a resolved native call, [secureFetch] sets [sessionCompromised] and throws
    when its own elapsed time is below 30, and goes on to [fetch] otherwise;
    the error it throws there is 'DataSync: Session integrity lost', the text
    of the latch guard, not a timing error of its own. *)
Theorem timing_floors (env : Env) :
  NATIVE_FLOOR_MS = 50 /\ JS_FLOOR_MS = 30
  /\ (forall domain pinHash o s leaf rest,
        connection o = Certificates (X509 leaf :: rest) ->
        computeSpkiHash leaf = pinHash ->
        (elapsedMs o < NATIVE_FLOOR_MS ->
         exists s' seen,
           ensureConfigSync domain pinHash o s
           = (s', Rejected "CONFIG_ERROR" "DataSync: Sync timing anomaly", seen)
           /\ sessionIntegrity s' = false)
        /\ (NATIVE_FLOOR_MS <= elapsedMs o ->
            exists s' seen,
              ensureConfigSync domain pinHash o s = (s', Resolved true, seen)))
  /\ (forall url options o w n b seen,
        sessionCompromised w = false ->
        DataSyncManager_defined env = true ->
        ensureConfigSync (configured_domain env) (configured_pin env)
          (sync_obs o) (native w)
        = (n, Resolved b, seen) ->
        (dateNow_end o - dateNow_start o < JS_FLOOR_MS ->
         exists seen',
           secureFetch env url options o w
           = ({| sessionCompromised := true; native := n |},
              Throws (new_Error "DataSync: Session integrity lost"),
              seen')
           /\ ~ In (Fetch url options) seen')
        /\ (JS_FLOOR_MS <= dateNow_end o - dateNow_start o ->
            exists called,
              secureFetch env url options o w
              = (let '(w2, c, fetching) :=
                   fetched url options (fetch_completion o)
                     {| sessionCompromised := false; native := n |} in
                 (w2, c, called ++ fetching)))).
Proof.
  split; [reflexivity|]. split; [reflexivity|]. split.
  - intros domain pinHash o s leaf rest Hconn He. split; intros Ht.
    + destruct (sync_too_fast domain pinHash o s leaf rest Hconn He Ht) as [seen E].
      eexists. exists seen. split; [exact E|reflexivity].
    + destruct (sync_pinned domain pinHash o s leaf rest Hconn He Ht) as [seen E].
      eexists. exists seen. exact E.
  - intros url options o w n b seen Hc Hd E.
    pose proof (secureFetch_on_resolution env url options o w Hc Hd n b seen E) as R.
    split; intros Ht.
    + apply Z.ltb_lt in Ht. rewrite Ht in R. rewrite R.
      eexists. split; [reflexivity|].
      intros Hin. simpl in Hin.
      destruct Hin as [Hin|[Hin|Hin]]; try discriminate Hin.
      apply in_app_or in Hin. destruct Hin as [Hin|[Hin|[]]]; [|discriminate Hin].
      (* the native call performs no [fetch] *)
      clear - E Hin.
      unfold ensureConfigSync, sync_failed, installInterceptorIfNeeded in E.
      destruct (interceptorInstalled (native w));
        repeat break_hyp E; inversion E; subst; simpl in Hin;
        repeat (destruct Hin as [Hin|Hin]; [discriminate Hin|]); exact Hin.
    + apply Z.ltb_ge in Ht. rewrite Ht in R. eexists. exact R.
Qed.

(** Scenario 3: pin and fingerprint agree, 10 ms. *)
Lemma timing_floors_witness :
  exists s' seen,
    ensureConfigSync "bank.test" pin_bank (sync_in 10 [X509 leaf_bank]) DataSyncManager_new
    = (s', Rejected "CONFIG_ERROR" "DataSync: Sync timing anomaly", seen)
    /\ sessionIntegrity s' = false.
Proof.
  apply (proj1 (proj2 (proj2 (timing_floors env_bank))) "bank.test" pin_bank
           (sync_in 10 [X509 leaf_bank]) DataSyncManager_new leaf_bank []).
  - reflexivity.
  - vm_compute. reflexivity.
  - vm_compute. reflexivity.
Defined.

(** C6 as worded fails at the upper floor.  The native call resolves (matching
    pin, 80 ms on its own clock) and JS measures 10 ms around it:
    [secureFetch] trips the latch and throws the very error the latch guard
    throws for an already compromised session, which the taxonomy reads as
    [SessionIntegrityLost], not [TimingAnomaly]. *)
Lemma js_floor_failure_is_not_a_timing_error :
  snd (fst (secureFetch env_bank "https://bank.test/login" get_request
              (fetch_in (sync_in 80 [X509 leaf_bank]) 10 (Returns response_200))
              World_new))
  = Throws (new_Error "DataSync: Session integrity lost")
  /\ snd (fst (secureFetch env_bank "https://bank.test/login" get_request
                 (fetch_in (sync_in 80 [X509 leaf_bank]) 85 (Returns response_200))
                 world_compromised))
     = Throws (new_Error "DataSync: Session integrity lost")
  /\ kind_of_error (new_Error "DataSync: Session integrity lost")
     = Some SessionIntegrityLost
  /\ kind_of_error (new_Error "DataSync: Session integrity lost") <> Some TimingAnomaly
  /\ kind_of_error
       (new_Error "DataSync: Configuration sync failed - DataSync: Sync timing anomaly")
     = Some TimingAnomaly.
Proof.
  repeat split; try (vm_compute; reflexivity).
  vm_compute. discriminate.
Qed.

(** ** The decoy surface *)

Lemma step_ignores_decoy_surface (env : Env) (d1 d2 : DecoySurface) (op : Op) (w : World) :
  is_decoy op = false -> step env d1 op w = step env d2 op w.
Proof.
  destruct op; simpl; intros H; try discriminate H; reflexivity.
Qed.

(** What a decoy resolves with and what it does are the same in every world. *)
Lemma decoy_step_reads_nothing (env : Env) (d : DecoySurface) (op : Op) (w1 w2 : World) :
  is_decoy op = true ->
  snd (fst (step env d op w1)) = snd (fst (step env d op w2))
  /\ snd (step env d op w1) = snd (step env d op w2).
Proof.
  destruct op; simpl; intros H; try discriminate H;
    destruct d; simpl; auto.
  destruct c; simpl; auto.
Qed.

Lemma run_is_blind_to_decoy_surface (env : Env) (ops : list Op) (w : World) :
  fst (run env Genuine ops w) = fst (run env Bypassed ops w)
  /\ trusted_outputs ops (snd (run env Genuine ops w))
     = trusted_outputs ops (snd (run env Bypassed ops w)).
Proof.
  revert w. induction ops as [|op ops IH]; intros w.
  - simpl. auto.
  - rewrite !run_cons. simpl fst. simpl snd. simpl trusted_outputs.
    destruct (is_decoy op) eqn:Hd.
    + rewrite !(decoy_step_leaves_world env _ op w Hd). apply IH.
    + rewrite (step_ignores_decoy_surface env Genuine Bypassed op w Hd).
      destruct (IH (fst (fst (step env Bypassed op w)))) as [I1 I2].
      split; [exact I1|]. rewrite I2. reflexivity.
Qed.

(** C7.  The decoys ([validateCertificate], [checkSSLPinning],
    [verifyCertificateChain]) write nothing (the world after one is the world
    before, both latches included) and read nothing (what one resolves with
    does not depend on the world).  Replacing all three by hooks that resolve
    with the success value changes nothing: over every sequence of operations
    from every world, the final world and the results of all operations other
    than the decoys are the same with genuine and with bypassed decoys.  In
    particular, with the decoys bypassed and after any sequence of
    operations, a leaf whose fingerprint differs from the pin is still
    rejected by [ensureConfigSync] with CONFIG_MISMATCH, [sessionIntegrity]
    goes to [false], and [secureFetch] throws and sets
    [sessionCompromised]. *)
Theorem decoys_do_not_interfere (env : Env) :
  (forall d op w, is_decoy op = true -> fst (fst (step env d op w)) = w)
  /\ (forall d op w1 w2,
        is_decoy op = true ->
        snd (fst (step env d op w1)) = snd (fst (step env d op w2)))
  /\ (forall ops w,
        fst (run env Genuine ops w) = fst (run env Bypassed ops w)
        /\ trusted_outputs ops (snd (run env Genuine ops w))
           = trusted_outputs ops (snd (run env Bypassed ops w)))
  /\ (forall ops w domain pinHash o leaf rest,
        connection o = Certificates (X509 leaf :: rest) ->
        computeSpkiHash leaf <> pinHash ->
        exists w' seen,
          step env Bypassed (EnsureConfigSync domain pinHash o)
            (fst (run env Bypassed ops w))
          = (w', Synced (Rejected "CONFIG_MISMATCH" "DataSync: Configuration mismatch"),
             seen)
          /\ sessionIntegrity (native w') = false)
  /\ (forall ops w url options o leaf rest,
        sessionCompromised (fst (run env Bypassed ops w)) = false ->
        DataSyncManager_defined env = true ->
        connection (sync_obs o) = Certificates (X509 leaf :: rest) ->
        computeSpkiHash leaf <> configured_pin env ->
        exists w' e seen,
          step env Bypassed (SecureFetch url options o) (fst (run env Bypassed ops w))
          = (w', SecureFetched (Throws e), seen)
          /\ sessionCompromised w' = true
          /\ sessionIntegrity (native w') = false).
Proof.
  split; [|split; [|split; [|split]]].
  - intros d op w H. apply decoy_step_leaves_world; assumption.
  - intros d op w1 w2 H. apply decoy_step_reads_nothing; assumption.
  - apply run_is_blind_to_decoy_surface.
  - intros ops w domain pinHash o leaf rest Hconn Hne.
    destruct (sync_mismatch domain pinHash o (native (fst (run env Bypassed ops w)))
                leaf rest Hconn Hne) as [seen E].
    simpl. unfold with_native. rewrite E.
    eexists. eexists. split; [reflexivity|reflexivity].
  - intros ops w url options o leaf rest Hc Hd Hconn Hne.
    destruct (sync_mismatch (configured_domain env) (configured_pin env) (sync_obs o)
                (native (fst (run env Bypassed ops w))) leaf rest Hconn Hne) as [seen E].
    simpl.
    rewrite (secureFetch_on_rejection env url options o _ Hc Hd _ _ _ _ E).
    do 3 eexists. split; [reflexivity|]. split; reflexivity.
Qed.

(** Every decoy hooked, then the proxy's certificate: scenario 2 still
    fails. *)
Lemma decoys_do_not_interfere_witness :
  exists w' seen,
    step env_bank Bypassed
      (EnsureConfigSync "bank.test" pin_bank (sync_in 80 [X509 leaf_rogue]))
      (fst (run env_bank Bypassed
              [CheckSSLPinning; VerifyCertificateChain;
               ValidateCertificate "bank.test" (Certificates [])]
              World_new))
    = (w', Synced (Rejected "CONFIG_MISMATCH" "DataSync: Configuration mismatch"), seen)
    /\ sessionIntegrity (native w') = false.
Proof.
  apply (proj1 (proj2 (proj2 (proj2 (decoys_do_not_interfere env_bank))))
           [CheckSSLPinning; VerifyCertificateChain;
            ValidateCertificate "bank.test" (Certificates [])]
           World_new "bank.test" pin_bank (sync_in 80 [X509 leaf_rogue]) leaf_rogue []).
  - reflexivity.
  - vm_compute. discriminate.
Defined.

(** The genuine [validateCertificate] can resolve [false]; its hook resolves
    [true]; the worlds after agree. *)
Example bypassing_validateCertificate_changes_only_its_answer :
  step env_bank Genuine (ValidateCertificate "bank.test" (Certificates [])) world_validated
  = (world_validated, Decoyed (Resolved false),
     [OpenConnection "https://bank.test"; Connect; ServerCertificates; Disconnect])
  /\ step env_bank Bypassed (ValidateCertificate "bank.test" (Certificates [])) world_validated
     = (world_validated, Decoyed (Resolved true), []).
Proof. split; vm_compute; reflexivity. Qed.

(** ** Further properties of the validator *)

Lemma ensureConfigSync_never_fetches (domain pinHash : string) (o : SyncObs)
    (s : DataSyncManager) (url : string) (options : RequestInit) :
  ~ In (Fetch url options) (snd (ensureConfigSync domain pinHash o s)).
Proof.
  unfold ensureConfigSync, sync_failed, installInterceptorIfNeeded.
  destruct (interceptorInstalled s);
    repeat break_match; simpl; intros Hin;
    repeat (destruct Hin as [Hin|Hin]; [discriminate Hin|]); exact Hin.
Qed.

(** X1.  With the native module defined, [secureFetch] calls [fetch] only
    after a full validation: the session was not compromised, the dedicated
    connection showed an X.509 leaf whose fingerprint is the configured pin,
    and both timing floors were met. *)
Theorem fetch_only_after_validation
    (env : Env) (url : string) (options : RequestInit) (o : FetchObs) (w w' : World)
    (c : Completion SecureFetchResponse) (seen : list Event)
    (url' : string) (options' : RequestInit) :
  DataSyncManager_defined env = true ->
  secureFetch env url options o w = (w', c, seen) ->
  In (Fetch url' options') seen ->
  sessionCompromised w = false
  /\ (exists leaf rest,
        connection (sync_obs o) = Certificates (X509 leaf :: rest)
        /\ computeSpkiHash leaf = configured_pin env)
  /\ NATIVE_FLOOR_MS <= elapsedMs (sync_obs o)
  /\ JS_FLOOR_MS <= dateNow_end o - dateNow_start o.
Proof.
  intros Hd E Hin.
  destruct (sessionCompromised w) eqn:Hc.
  - unfold secureFetch in E. rewrite Hc in E. inversion E; subst. destruct Hin.
  - split; [reflexivity|].
    destruct (ensureConfigSync (configured_domain env) (configured_pin env)
                (sync_obs o) (native w)) as [[n r] seen0] eqn:S.
    pose proof (ensureConfigSync_never_fetches (configured_domain env) (configured_pin env)
                  (sync_obs o) (native w) url' options') as NF.
    rewrite S in NF. simpl in NF.
    destruct r as [b|code msg].
    + destruct (sync_resolved_only_if_pinned _ _ _ _ _ _ _ S)
        as (leaf & rest & Hconn & He & Hn & _ & _).
      rewrite (secureFetch_on_resolution env url options o w Hc Hd n b seen0 S) in E.
      destruct (dateNow_end o - dateNow_start o <? JS_FLOOR_MS) eqn:Ht.
      * exfalso. inversion E; subst. simpl in Hin.
        destruct Hin as [Hin|[Hin|Hin]]; try discriminate Hin.
        apply in_app_or in Hin. destruct Hin as [Hin|[Hin|[]]]; [|discriminate Hin].
        exact (NF Hin).
      * split; [exists leaf, rest; split; assumption|].
        split; [assumption|]. apply Z.ltb_ge. assumption.
    + exfalso.
      rewrite (secureFetch_on_rejection env url options o w Hc Hd n code msg seen0 S) in E.
      inversion E; subst. simpl in Hin.
      destruct Hin as [Hin|[Hin|Hin]]; try discriminate Hin.
      exact (NF Hin).
Qed.

Lemma fetch_only_after_validation_witness :
  sessionCompromised World_new = false
  /\ (exists leaf rest,
        connection (sync_in 80 [X509 leaf_bank]) = Certificates (X509 leaf :: rest)
        /\ computeSpkiHash leaf = configured_pin env_bank)
  /\ NATIVE_FLOOR_MS <= elapsedMs (sync_in 80 [X509 leaf_bank])
  /\ JS_FLOOR_MS <= 85.
Proof.
  refine (fetch_only_after_validation env_bank "https://bank.test/login" get_request
            (fetch_in (sync_in 80 [X509 leaf_bank]) 85 (Returns response_200))
            World_new _ _ _ "https://bank.test/login" get_request _ _ _).
  - reflexivity.
  - vm_compute. reflexivity.
  - vm_compute. do 12 right. left. reflexivity.
Defined.

(** X2.  Once [sessionCompromised] is set, every [secureFetch] of every later
    sequence of operations throws 'DataSync: Session integrity lost',
    whatever else runs in between. *)
Theorem compromised_session_blocks_every_later_request
    (env : Env) (d : DecoySurface) (ops : list Op) (w : World) :
  sessionCompromised w = true ->
  Forall2
    (fun op out =>
       forall url options o,
         op = SecureFetch url options o ->
         out = SecureFetched (Throws (new_Error "DataSync: Session integrity lost")))
    ops (snd (run env d ops w)).
Proof.
  revert w. induction ops as [|op ops IH]; intros w Hc.
  - simpl. constructor.
  - rewrite run_cons. simpl snd. constructor.
    + intros url options o Hop. subst op. simpl.
      unfold secureFetch. rewrite Hc. reflexivity.
    + apply IH. apply (proj1 (step_keeps_tripped env d op w)). exact Hc.
Qed.

Lemma compromised_session_blocks_every_later_request_witness :
  Forall2
    (fun op out =>
       forall url options o,
         op = SecureFetch url options o ->
         out = SecureFetched (Throws (new_Error "DataSync: Session integrity lost")))
    [GetConnectionMetrics;
     SecureFetch "https://bank.test/login" get_request
       (fetch_in (sync_in 80 [X509 leaf_bank]) 85 (Returns response_200))]
    (snd (run env_bank Genuine
            [GetConnectionMetrics;
             SecureFetch "https://bank.test/login" get_request
               (fetch_in (sync_in 80 [X509 leaf_bank]) 85 (Returns response_200))]
            world_compromised)).
Proof.
  apply (compromised_session_blocks_every_later_request env_bank Genuine).
  vm_compute. reflexivity.
Defined.



(** Without that restriction the implication fails: a direct
    [ensureConfigSync] that meets the proxy trips the native latch alone, and
    the next [secureFetch] with a good certificate goes through. *)
Example direct_native_call_trips_native_latch_only :
  let w := fst (run env_bank Genuine
                  [EnsureConfigSync "bank.test" pin_bank (sync_in 80 [X509 leaf_rogue])]
                  World_new) in
  sessionIntegrity (native w) = false
  /\ sessionCompromised w = false
  /\ snd (fst (secureFetch env_bank "https://bank.test/login" get_request
                 (fetch_in (sync_in 80 [X509 leaf_bank]) 85 (Returns response_200)) w))
     = Returns {| sf_ok := true; sf_status := 200;
                  sf_headers := [("content-type", "application/json")];
                  sf_url := "https://bank.test/login"; sf_text := "{}" |}.
Proof. vm_compute. repeat split. Qed.

(** X4.  The verdict of [ensureConfigSync] depends on what the connection
    showed and on the pin, never on the state of the module: neither the
    latch nor the metrics are consulted, so a tripped module still resolves
    for a good certificate. *)
Theorem verdict_ignores_module_state
    (domain pinHash : string) (o : SyncObs) (s1 s2 : DataSyncManager) :
  snd (fst (ensureConfigSync domain pinHash o s1))
  = snd (fst (ensureConfigSync domain pinHash o s2)).
Proof.
  unfold ensureConfigSync, sync_failed.
  destruct (installInterceptorIfNeeded domain pinHash s1) as [t1 i1].
  destruct (installInterceptorIfNeeded domain pinHash s2) as [t2 i2].
  repeat break_match; reflexivity.
Qed.

(** X5.  [ensureConfigSync] touches the metrics on success only: a rejection
    leaves [validationCount] and [lastValidationTimestamp] as they were and
    sets the latch; a resolution bumps the count, stamps the time and leaves
    the latch as it was. *)
Theorem metrics_move_on_success_only
    (domain pinHash : string) (o : SyncObs) (s s' : DataSyncManager)
    (r : Settled bool) (seen : list Event) :
  ensureConfigSync domain pinHash o s = (s', r, seen) ->
  match r with
  | Rejected _ _ =>
      validationCount s' = validationCount s
      /\ lastValidationTimestamp s' = lastValidationTimestamp s
      /\ sessionIntegrity s' = false
  | Resolved _ =>
      validationCount s' = int_wrap (validationCount s + 1)
      /\ lastValidationTimestamp s' = currentTimeMillis o
      /\ sessionIntegrity s' = sessionIntegrity s
  end.
Proof.
  intros E.
  destruct (installed_state_fields domain pinHash s) as (Hi & Hv & Ht).
  destruct r as [b|code msg].
  - destruct (sync_resolved_only_if_pinned _ _ _ _ _ _ _ E)
      as (_ & _ & _ & _ & _ & _ & Hn).
    subst s'. simpl. rewrite Hi, Hv. auto.
  - unfold ensureConfigSync, sync_failed in E.
    unfold installed_state in Hi, Hv, Ht.
    destruct (installInterceptorIfNeeded domain pinHash s) as [s1 installed].
    simpl in Hi, Hv, Ht.
    repeat break_hyp E; inversion E; subst; simpl; auto.
Qed.

Lemma metrics_move_on_success_only_witness :
  validationCount
    (fst (fst (ensureConfigSync "bank.test" pin_bank (sync_in 10 [X509 leaf_bank])
                 (native world_validated)))) = 1
  /\ lastValidationTimestamp
       (fst (fst (ensureConfigSync "bank.test" pin_bank (sync_in 10 [X509 leaf_bank])
                    (native world_validated)))) = 1700000000000
  /\ sessionIntegrity
       (fst (fst (ensureConfigSync "bank.test" pin_bank (sync_in 10 [X509 leaf_bank])
                    (native world_validated)))) = false.
Proof.
  exact (metrics_move_on_success_only "bank.test" pin_bank (sync_in 10 [X509 leaf_bank])
           (native world_validated) _ (Rejected "CONFIG_ERROR" "DataSync: Sync timing anomaly")
           _ ltac:(vm_compute; reflexivity)).
Defined.

(** ** The interceptor's installation *)

Lemma ensureConfigSync_interceptor (domain pinHash : string) (o : SyncObs) (s : DataSyncManager) :
  let s' := fst (fst (ensureConfigSync domain pinHash o s)) in
  interceptorInstalled s' = true
  /\ okHttpInterceptor s'
     = if interceptorInstalled s then okHttpInterceptor s
       else Some {| pinnedDomain := domain; pinnedHash := pinHash |}.
Proof.
  unfold ensureConfigSync, sync_failed, installInterceptorIfNeeded.
  destruct (interceptorInstalled s) eqn:Hi;
    repeat break_match; simpl; auto.
Qed.

Lemma step_keeps_interceptor (env : Env) (d : DecoySurface) (op : Op) (w : World)
    (i : ConfigInterceptor) :
  interceptorInstalled (native w) = true ->
  okHttpInterceptor (native w) = Some i ->
  interceptorInstalled (native (fst (fst (step env d op w)))) = true
  /\ okHttpInterceptor (native (fst (fst (step env d op w)))) = Some i.
Proof.
  intros Hi Ho. destruct op.
  - simpl. unfold secureFetch, nativeSpkiValidation.
    destruct (sessionCompromised w); [simpl; auto|].
    destruct (DataSyncManager_defined env).
    + pose proof (ensureConfigSync_interceptor
                    (or_else (SSL_PIN_DOMAIN env) "vulnbank.org")
                    (or_else (SSL_PIN_HASH_1 env) "") (sync_obs o) (native w)) as K.
      destruct (ensureConfigSync _ _ (sync_obs o) (native w)) as [[n r] seen0].
      simpl in K. rewrite Hi, Ho in K.
      destruct r as [b|code msg]; [|simpl; exact K].
      destruct (dateNow_end o - dateNow_start o <? JS_FLOOR_MS); [simpl; exact K|].
      destruct (fetch_completion o) as [response|error]; simpl; [exact K|].
      destruct (mentions_DataSync error); simpl; exact K.
    + destruct (fetch_completion o) as [response|error]; simpl; [auto|].
      destruct (mentions_DataSync error); simpl; auto.
  - simpl. unfold with_native.
    pose proof (ensureConfigSync_interceptor domain pinHash o (native w)) as K.
    destruct (ensureConfigSync domain pinHash o (native w)) as [[n r] seen0].
    simpl in *. rewrite Hi, Ho in K. exact K.
  - rewrite intercept_step_leaves_world. auto.
  - rewrite decoy_step_leaves_world by reflexivity. auto.
  - rewrite decoy_step_leaves_world by reflexivity. auto.
  - rewrite decoy_step_leaves_world by reflexivity. auto.
  - simpl. auto.
Qed.

(** X6.  The interceptor is installed once: from the moment one is in place,
    no sequence of operations replaces or removes it, and a later
    [ensureConfigSync] with another domain or pin leaves the first
    interceptor, with the first pin, in the OkHttp client. *)
Theorem first_interceptor_stays
    (env : Env) (d : DecoySurface) (ops : list Op) (w : World) (i : ConfigInterceptor) :
  interceptorInstalled (native w) = true ->
  okHttpInterceptor (native w) = Some i ->
  interceptorInstalled (native (fst (run env d ops w))) = true
  /\ okHttpInterceptor (native (fst (run env d ops w))) = Some i.
Proof.
  revert w. induction ops as [|op ops IH]; intros w Hi Ho.
  - simpl. auto.
  - rewrite run_cons. simpl fst.
    destruct (step_keeps_interceptor env d op w i Hi Ho) as [Hi' Ho'].
    apply IH; assumption.
Qed.

Lemma first_interceptor_stays_witness :
  okHttpInterceptor
    (native (fst (run env_bank Genuine
                    [EnsureConfigSync "other.test" "AAAA" (sync_in 80 [X509 leaf_rogue])]
                    world_validated)))
  = Some interceptor_bank.
Proof.
  apply (first_interceptor_stays env_bank Genuine
           [EnsureConfigSync "other.test" "AAAA" (sync_in 80 [X509 leaf_rogue])]
           world_validated interceptor_bank);
    vm_compute; reflexivity.
Defined.

Lemma interceptor_invariant_from_new
    (env : Env) (d : DecoySurface) (ops : list Op) :
  forallb (fun op => negb (calls_native_directly op)) ops = true ->
  let n := native (fst (run env d ops World_new)) in
  (interceptorInstalled n = false /\ okHttpInterceptor n = None)
  \/ (interceptorInstalled n = true
      /\ okHttpInterceptor n
         = Some {| pinnedDomain := configured_domain env;
                   pinnedHash := configured_pin env |}).
Proof.
  intros Hops.
  assert (G : forall w,
             ((interceptorInstalled (native w) = false /\ okHttpInterceptor (native w) = None)
              \/ (interceptorInstalled (native w) = true
                  /\ okHttpInterceptor (native w)
                     = Some {| pinnedDomain := configured_domain env;
                               pinnedHash := configured_pin env |})) ->
             let n := native (fst (run env d ops w)) in
             (interceptorInstalled n = false /\ okHttpInterceptor n = None)
             \/ (interceptorInstalled n = true
                 /\ okHttpInterceptor n
                    = Some {| pinnedDomain := configured_domain env;
                              pinnedHash := configured_pin env |})).
  { induction ops as [|op ops IH]; intros w Hw.
    - simpl. exact Hw.
    - simpl in Hops. apply andb_true_iff in Hops. destruct Hops as [Hop Hops].
      rewrite run_cons. simpl fst. apply (IH Hops). clear IH Hops.
      destruct Hw as [[Hi Ho]|[Hi Ho]].
      + destruct op; simpl in Hop; try discriminate Hop.
        * simpl. unfold secureFetch, nativeSpkiValidation.
          destruct (sessionCompromised w); [simpl; auto|].
          destruct (DataSyncManager_defined env).
          -- pose proof (ensureConfigSync_interceptor
                           (or_else (SSL_PIN_DOMAIN env) "vulnbank.org")
                           (or_else (SSL_PIN_HASH_1 env) "") (sync_obs o) (native w)) as K.
             destruct (ensureConfigSync _ _ (sync_obs o) (native w)) as [[n r] seen0].
             simpl in K. rewrite Hi in K. right.
             destruct r as [b|code msg]; [|simpl; exact K].
             destruct (dateNow_end o - dateNow_start o <? JS_FLOOR_MS); [simpl; exact K|].
             destruct (fetch_completion o) as [response|error]; simpl; [exact K|].
             destruct (mentions_DataSync error); simpl; exact K.
          -- destruct (fetch_completion o) as [response|error]; simpl; [auto|].
             destruct (mentions_DataSync error); simpl; auto.
        * rewrite intercept_step_leaves_world. auto.
        * rewrite decoy_step_leaves_world by reflexivity. auto.
        * rewrite decoy_step_leaves_world by reflexivity. auto.
        * rewrite decoy_step_leaves_world by reflexivity. auto.
        * simpl. auto.
      + right. apply step_keeps_interceptor; assumption. }
  apply G. left. split; reflexivity.
Qed.

Lemma secureFetch_installs (env : Env) (url : string) (options : RequestInit)
    (o : FetchObs) (w : World) :
  sessionCompromised w = false ->
  DataSyncManager_defined env = true ->
  interceptorInstalled (native w) = false ->
  let n := native (fst (fst (secureFetch env url options o w))) in
  interceptorInstalled n = true
  /\ okHttpInterceptor n
     = Some {| pinnedDomain := configured_domain env; pinnedHash := configured_pin env |}.
Proof.
  intros Hc Hd Hi. unfold secureFetch, nativeSpkiValidation. rewrite Hc, Hd.
  pose proof (ensureConfigSync_interceptor
                (or_else (SSL_PIN_DOMAIN env) "vulnbank.org")
                (or_else (SSL_PIN_HASH_1 env) "") (sync_obs o) (native w)) as K.
  destruct (ensureConfigSync _ _ (sync_obs o) (native w)) as [[n r] seen0].
  simpl in K. rewrite Hi in K.
  destruct r as [b|code msg]; [|simpl; exact K].
  destruct (dateNow_end o - dateNow_start o <? JS_FLOOR_MS); [simpl; exact K|].
  destruct (fetch_completion o) as [response|error]; simpl; [exact K|].
  destruct (mentions_DataSync error); simpl; exact K.
Qed.

(** X7.  From a fresh process, when the native validation is reached through
    [secureFetch] only, the OkHttp client carries either no interceptor or
    the one for the configured domain and pin, and [interceptorInstalled]
    says which.  The first native call installs it whatever its verdict: a
    [secureFetch] that reaches the native module, or an [ensureConfigSync],
    on a module without interceptor leaves [interceptorInstalled] set and the
    interceptor for the domain and pin of that call in place, whether the
    call resolved, rejected or threw. *)
Theorem installed_interceptor_is_the_configured_one
    (env : Env) (d : DecoySurface) (ops : list Op) :
  (forallb (fun op => negb (calls_native_directly op)) ops = true ->
   let n := native (fst (run env d ops World_new)) in
   (interceptorInstalled n = false /\ okHttpInterceptor n = None)
   \/ (interceptorInstalled n = true
       /\ okHttpInterceptor n
          = Some {| pinnedDomain := configured_domain env;
                    pinnedHash := configured_pin env |}))
  /\ (forall url options o w,
        sessionCompromised w = false ->
        DataSyncManager_defined env = true ->
        interceptorInstalled (native w) = false ->
        let n := native (fst (fst (secureFetch env url options o w))) in
        interceptorInstalled n = true
        /\ okHttpInterceptor n
           = Some {| pinnedDomain := configured_domain env;
                     pinnedHash := configured_pin env |})
  /\ (forall domain pinHash o s,
        interceptorInstalled s = false ->
        let s' := fst (fst (ensureConfigSync domain pinHash o s)) in
        interceptorInstalled s' = true
        /\ okHttpInterceptor s'
           = Some {| pinnedDomain := domain; pinnedHash := pinHash |}).
Proof.
  split; [|split].
  - apply interceptor_invariant_from_new.
  - apply secureFetch_installs.
  - intros domain pinHash o s Hi.
    pose proof (ensureConfigSync_interceptor domain pinHash o s) as K.
    simpl in K. rewrite Hi in K. exact K.
Qed.

(** The host is unreachable and the call rejects: the interceptor is in
    place all the same. *)
Lemma installed_interceptor_is_the_configured_one_witness :
  let n := native (fst (fst (secureFetch env_bank "https://bank.test/login" get_request
                               (fetch_in sync_unreachable 85 (Returns response_200))
                               World_new))) in
  interceptorInstalled n = true
  /\ okHttpInterceptor n
     = Some {| pinnedDomain := configured_domain env_bank;
               pinnedHash := configured_pin env_bank |}.
Proof.
  apply (proj1 (proj2 (installed_interceptor_is_the_configured_one env_bank Genuine []))
           "https://bank.test/login" get_request
           (fetch_in sync_unreachable 85 (Returns response_200)) World_new);
    reflexivity.
Defined.

(** ** Connections and clocks *)



Lemma long_wrap_in_range (z : Z) :
  - 2 ^ 63 <= z < 2 ^ 63 -> long_wrap z = z.
Proof.
  intros H. unfold long_wrap.
  rewrite Z.mod_small by lia. lia.
Qed.

(** X9.  The native floor, in nanoseconds: the milliseconds are a truncated
    quotient, so as long as the two [nanoTime] readings are less than 2^63
    apart the check trips exactly below 50,000,000 ns, and a clock that ran
    backwards always trips it. *)
Theorem native_floor_in_nanoseconds (o : SyncObs) :
  - 2 ^ 63 <= nanoTime_check o - nanoTime_start o < 2 ^ 63 ->
  (elapsedMs o <? NATIVE_FLOOR_MS) = (nanoTime_check o - nanoTime_start o <? 50000000).
Proof.
  intros H. unfold elapsedMs, long_sub, long_div, NATIVE_FLOOR_MS.
  rewrite (long_wrap_in_range _ H).
  set (delta := nanoTime_check o - nanoTime_start o) in *.
  assert (Hq : - 2 ^ 63 <= Z.quot delta 1000000 < 2 ^ 63).
  { destruct (Z.le_gt_cases 0 delta) as [Hp|Hn].
    - rewrite Z.quot_div_nonneg by lia.
      split; [pose proof (Z.div_pos delta 1000000); lia|].
      apply Z.div_lt_upper_bound; lia.
    - assert (Z.quot delta 1000000 = - (Z.quot (- delta) 1000000)) as ->.
      { rewrite Z.quot_opp_l by lia. lia. }
      rewrite Z.quot_div_nonneg by lia.
      pose proof (Z.div_pos (- delta) 1000000).
      assert ((- delta) / 1000000 < 2 ^ 63 + 1).
      { apply Z.div_lt_upper_bound; lia. }
      lia. }
  rewrite (long_wrap_in_range _ Hq).
  destruct (Z.le_gt_cases 0 delta) as [Hp|Hn].
  - rewrite Z.quot_div_nonneg by lia.
    destruct (delta <? 50000000) eqn:E.
    + apply Z.ltb_lt in E. apply Z.ltb_lt. apply Z.div_lt_upper_bound; lia.
    + apply Z.ltb_ge in E. apply Z.ltb_ge.
      apply Z.div_le_lower_bound; lia.
  - assert (Z.quot delta 1000000 <= 0).
    { assert (Z.quot delta 1000000 = - (Z.quot (- delta) 1000000)) as ->.
      { rewrite Z.quot_opp_l by lia. lia. }
      rewrite Z.quot_div_nonneg by lia.
      pose proof (Z.div_pos (- delta) 1000000). lia. }
    transitivity true; [apply Z.ltb_lt; lia|symmetry; apply Z.ltb_lt; lia].
Qed.

Lemma native_floor_in_nanoseconds_witness :
  (elapsedMs {| nanoTime_start := 5000000000;
                connection := Certificates [X509 leaf_bank];
                nanoTime_check := 5049999999;
                currentTimeMillis := 0 |} <? NATIVE_FLOOR_MS)
  = (5049999999 - 5000000000 <? 50000000).
Proof.
  apply (native_floor_in_nanoseconds
           {| nanoTime_start := 5000000000;
              connection := Certificates [X509 leaf_bank];
              nanoTime_check := 5049999999;
              currentTimeMillis := 0 |}).
  vm_compute. split; [discriminate|reflexivity].
Defined.

(** ** More on [intercept] *)

(** X10.  What [intercept] returns is what the chain returned, untouched, and
    it returns for the pinned domain only when the handshake showed an X.509
    leaf whose fingerprint is the pinned hash. *)
Theorem intercept_returns_only_pinned_responses
    (self : ConfigInterceptor) (chain : Chain) (r : Response) (seen : list Event) :
  intercept self chain = (Return r, seen) ->
  chain_proceed chain (chain_request chain) = Return r
  /\ (equalsIgnoreCase (url_host (chain_request chain)) (pinnedDomain self) = false
      \/ exists hs leaf rest,
           handshake r = Some hs
           /\ peerCertificates hs = X509 leaf :: rest
           /\ computeSpkiHash leaf = pinnedHash self).
Proof.
  unfold intercept.
  destruct (equalsIgnoreCase (url_host (chain_request chain)) (pinnedDomain self)) eqn:Hh;
    simpl.
  - destruct (chain_proceed chain (chain_request chain)) as [response|e] eqn:Hp;
      [|discriminate].
    destruct (handshake response) as [hs|] eqn:Hs; [|discriminate].
    destruct (peerCertificates hs) as [|[leaf|] rest] eqn:Hc; try discriminate.
    destruct (String.eqb (computeSpkiHash leaf) (pinnedHash self)) eqn:He;
      simpl; [|discriminate].
    intros E. inversion E; subst. split; [reflexivity|].
    right. exists hs, leaf, rest. repeat split; try assumption.
    apply String.eqb_eq. assumption.
  - intros E. inversion E; subst. auto.
Qed.

Lemma intercept_returns_only_pinned_responses_witness :
  chain_proceed (chain_to "bank.test" [X509 leaf_bank])
    (chain_request (chain_to "bank.test" [X509 leaf_bank]))
  = Return {| response_code := 200;
              handshake := Some {| peerCertificates := [X509 leaf_bank] |};
              has_body := true |}
  /\ (equalsIgnoreCase "bank.test" (pinnedDomain interceptor_bank) = false
      \/ exists hs leaf rest,
           Some {| peerCertificates := [X509 leaf_bank] |} = Some hs
           /\ peerCertificates hs = X509 leaf :: rest
           /\ computeSpkiHash leaf = pinnedHash interceptor_bank).
Proof.
  exact (intercept_returns_only_pinned_responses interceptor_bank
           (chain_to "bank.test" [X509 leaf_bank]) _ _ ltac:(vm_compute; reflexivity)).
Defined.

(** X11.  [intercept] closes the response body exactly when it throws the
    mismatch on a response that has one.  When it throws for a missing
    handshake, an empty chain or an undecodable leaf, the response it
    received is left open; an exception of the transport is rethrown as it
    is. *)
Theorem intercept_closes_the_body_on_mismatch_only
    (self : ConfigInterceptor) (chain : Chain) :
  (In CloseBody (snd (intercept self chain)) <->
   exists response hs leaf rest,
     equalsIgnoreCase (url_host (chain_request chain)) (pinnedDomain self) = true
     /\ chain_proceed chain (chain_request chain) = Return response
     /\ handshake response = Some hs
     /\ peerCertificates hs = X509 leaf :: rest
     /\ computeSpkiHash leaf <> pinnedHash self
     /\ has_body response = true)
  /\ (forall e,
        chain_proceed chain (chain_request chain) = Throw e ->
        intercept self chain = (Throw e, [ChainProceed (url_host (chain_request chain))])).
Proof.
  split.
  - unfold intercept. split.
    + destruct (equalsIgnoreCase (url_host (chain_request chain)) (pinnedDomain self)) eqn:Hh;
        simpl; [|intros [H|[]]; discriminate H].
      destruct (chain_proceed chain (chain_request chain)) as [response|e] eqn:Hp;
        [|intros [H|[]]; discriminate H].
      destruct (handshake response) as [hs|] eqn:Hs;
        [|simpl; intros [H|[H|[]]]; discriminate H].
      destruct (peerCertificates hs) as [|[leaf|] rest] eqn:Hc;
        try (simpl; intros [H|[H|[H|[]]]]; discriminate H).
      destruct (String.eqb (computeSpkiHash leaf) (pinnedHash self)) eqn:He; simpl.
      * intros [H|[H|[H|[H|[]]]]]; discriminate H.
      * destruct (has_body response) eqn:Hb; simpl.
        -- intros _. exists response, hs, leaf, rest.
           repeat split; try assumption. apply String.eqb_neq. assumption.
        -- intros [H|[H|[H|[H|[]]]]]; discriminate H.
    + intros (response & hs & leaf & rest & Hh & Hp & Hs & Hc & Hne & Hb).
      rewrite Hh, Hp, Hs, Hc. simpl.
      apply String.eqb_neq in Hne. rewrite Hne, Hb. simpl. do 4 right. left. reflexivity.
  - intros e Hp. unfold intercept. rewrite Hp.
    destruct (equalsIgnoreCase _ _); reflexivity.
Qed.

Lemma intercept_closes_the_body_on_mismatch_only_witness :
  intercept interceptor_bank
    {| chain_request := {| url_host := "bank.test"; url_path := "/" |};
       chain_proceed := fun _ => Throw (IOException "timeout") |}
  = (Throw (IOException "timeout"), [ChainProceed "bank.test"]).
Proof.
  apply (proj2 (intercept_closes_the_body_on_mismatch_only interceptor_bank
                  {| chain_request := {| url_host := "bank.test"; url_path := "/" |};
                     chain_proceed := fun _ => Throw (IOException "timeout") |})).
  reflexivity.
Defined.

(** ** The domain test *)

Lemma in_all_ascii (c : ascii) : In c all_ascii.
Proof.
  unfold all_ascii. rewrite <- (ascii_nat_embedding c).
  apply in_map. apply in_seq. pose proof (nat_ascii_bounded c). lia.
Qed.

Lemma char_equalsIgnoreCase_is_upper (c1 c2 : ascii) :
  char_equalsIgnoreCase c1 c2 = Ascii.eqb (toUpperCase c1) (toUpperCase c2).
Proof.
  assert (H : forallb (fun a =>
                forallb (fun b =>
                  Bool.eqb (char_equalsIgnoreCase a b)
                           (Ascii.eqb (toUpperCase a) (toUpperCase b)))
                  all_ascii) all_ascii = true)
    by (vm_compute; reflexivity).
  rewrite forallb_forall in H. specialize (H c1 (in_all_ascii c1)).
  rewrite forallb_forall in H. specialize (H c2 (in_all_ascii c2)).
  apply Bool.eqb_prop. exact H.
Qed.

Lemma equalsIgnoreCase_is_eqb_uppercase (a b : string) :
  equalsIgnoreCase a b = String.eqb (uppercase a) (uppercase b).
Proof.
  revert b. induction a as [|c1 a IH]; intros [|c2 b]; simpl; try reflexivity.
  rewrite char_equalsIgnoreCase_is_upper, IH.
  destruct (Ascii.eqb (toUpperCase c1) (toUpperCase c2)); reflexivity.
Qed.

Lemma uppercase_length (s : string) : String.length (uppercase s) = String.length s.
Proof. induction s; simpl; congruence. Qed.

Lemma equalsIgnoreCase_same_length (a b : string) :
  equalsIgnoreCase a b = true -> String.length a = String.length b.
Proof.
  rewrite equalsIgnoreCase_is_eqb_uppercase. intros H. apply String.eqb_eq in H.
  rewrite <- (uppercase_length a), <- (uppercase_length b), H. reflexivity.
Qed.

(** The interceptor's domain test is equality after upper-casing the ASCII
    letters: an equivalence between strings of the same length. *)
Theorem equalsIgnoreCase_is_equality_of_uppercase (a b : string) :
  (equalsIgnoreCase a b = true <-> uppercase a = uppercase b)
  /\ (equalsIgnoreCase a b = true -> String.length a = String.length b).
Proof.
  split.
  - rewrite equalsIgnoreCase_is_eqb_uppercase. apply String.eqb_eq.
  - apply equalsIgnoreCase_same_length.
Qed.

Lemma equalsIgnoreCase_is_equality_of_uppercase_witness :
  String.length "BANK.Test" = String.length "bank.test".
Proof.
  apply (proj2 (equalsIgnoreCase_is_equality_of_uppercase "BANK.Test" "bank.test")).
  vm_compute. reflexivity.
Defined.

Lemma append_length (a b : string) :
  String.length (a ++ b)%string = (String.length a + String.length b)%nat.
Proof. induction a; simpl; congruence. Qed.

(** X12.  A request to a subdomain of the pinned domain, or to any host that
    merely ends with it, is not validated: [intercept] hands it to the chain
    and looks at no certificate. *)
Theorem subdomains_are_not_validated
    (self : ConfigInterceptor) (chain : Chain) (label : string) :
  label <> EmptyString ->
  url_host (chain_request chain) = (label ++ pinnedDomain self)%string ->
  intercept self chain
  = (chain_proceed chain (chain_request chain),
     [ChainProceed (url_host (chain_request chain))]).
Proof.
  intros Hl Hh. unfold intercept.
  destruct (equalsIgnoreCase (url_host (chain_request chain)) (pinnedDomain self)) eqn:E;
    [|reflexivity].
  exfalso.
  apply equalsIgnoreCase_same_length in E.
  rewrite Hh, append_length in E.
  destruct label; [apply Hl; reflexivity|]. simpl in E. lia.
Qed.

Lemma subdomains_are_not_validated_witness :
  intercept interceptor_bank (chain_to "api.bank.test" [X509 leaf_rogue])
  = (chain_proceed (chain_to "api.bank.test" [X509 leaf_rogue])
       (chain_request (chain_to "api.bank.test" [X509 leaf_rogue])),
     [ChainProceed "api.bank.test"]).
Proof.
  apply (subdomains_are_not_validated interceptor_bank
           (chain_to "api.bank.test" [X509 leaf_rogue]) "api.").
  - discriminate.
  - reflexivity.
Defined.

(** ** The shape of a fingerprint *)

Lemma compress_length (h block : list Z) :
  List.length h = 8%nat -> List.length (Crypto.compress h block) = 8%nat.
Proof.
  intros H. unfold Crypto.compress.
  rewrite length_map, length_combine, H. reflexivity.
Qed.

Lemma fold_compress_length (bs : list (list Z)) (h : list Z) :
  List.length h = 8%nat -> List.length (fold_left Crypto.compress bs h) = 8%nat.
Proof.
  revert h. induction bs as [|b bs IH]; intros h H; simpl; [exact H|].
  apply IH. apply compress_length. exact H.
Qed.

Lemma flat_map_be_bytes_length (h : list Z) :
  List.length (flat_map (Crypto.be_bytes 4) h) = (4 * List.length h)%nat.
Proof.
  induction h as [|x h IH]; [reflexivity|].
  change (flat_map (Crypto.be_bytes 4) (x :: h))
    with (Crypto.be_bytes 4 x ++ flat_map (Crypto.be_bytes 4) h).
  rewrite length_app, IH. simpl List.length. lia.
Qed.

Lemma sha256_length (msg : list byte) : List.length (Crypto.sha256 msg) = 32%nat.
Proof.
  unfold Crypto.sha256. rewrite flat_map_be_bytes_length.
  rewrite fold_compress_length; reflexivity.
Qed.

Lemma base64_length_upto (k : nat) (bs : list Z) :
  (List.length bs <= 3 * k)%nat ->
  String.length (Crypto.base64 bs) = (4 * ((List.length bs + 2) / 3))%nat.
Proof.
  revert bs. induction k as [|k IH]; intros bs H.
  - destruct bs; [reflexivity|simpl in H; lia].
  - destruct bs as [|a [|b [|c rest]]]; try reflexivity.
    change (Crypto.base64 (a :: b :: c :: rest))
      with (String (Crypto.sextet (Z.shiftr a 2))
              (String (Crypto.sextet (Z.shiftl (a mod 4) 4 + Z.shiftr b 4))
                 (String (Crypto.sextet (Z.shiftl (b mod 16) 2 + Z.shiftr c 6))
                    (String (Crypto.sextet c) (Crypto.base64 rest))))).
    simpl String.length. rewrite IH by (simpl in H; lia).
    simpl List.length.
    replace (S (S (S (List.length rest))) + 2)%nat
      with ((List.length rest + 2) + 1 * 3)%nat by lia.
    rewrite Nat.div_add by lia. lia.
Qed.

Lemma computeSpkiHash_length (cert : X509Certificate) :
  String.length (computeSpkiHash cert) = 44%nat.
Proof.
  unfold computeSpkiHash.
  rewrite (base64_length_upto 11) by (rewrite sha256_length; lia).
  rewrite sha256_length. reflexivity.
Qed.

(** X13.  A fingerprint is always 44 characters of Base64 whatever the key
    (32 bytes of digest, padded), so [ensureConfigSync] and [intercept] can
    only ever accept a pin of that length. *)
Theorem fingerprint_is_44_characters (cert : X509Certificate) :
  String.length (computeSpkiHash cert) = 44%nat
  /\ (forall domain pinHash o s n b seen,
        ensureConfigSync domain pinHash o s = (n, Resolved b, seen) ->
        String.length pinHash = 44%nat)
  /\ (forall self chain r seen,
        equalsIgnoreCase (url_host (chain_request chain)) (pinnedDomain self) = true ->
        intercept self chain = (Return r, seen) ->
        String.length (pinnedHash self) = 44%nat).
Proof.
  split; [apply computeSpkiHash_length|]. split.
  - intros domain pinHash o s n b seen E.
    destruct (sync_resolved_only_if_pinned _ _ _ _ _ _ _ E) as (leaf & rest & _ & He & _).
    rewrite <- He. apply computeSpkiHash_length.
  - intros self chain r seen Hh E. unfold intercept in E. rewrite Hh in E. simpl in E.
    destruct (chain_proceed chain (chain_request chain)) as [response|e];
      [|discriminate E].
    destruct (handshake response) as [hs|]; [|discriminate E].
    destruct (peerCertificates hs) as [|[leaf|] rest]; try discriminate E.
    destruct (String.eqb (computeSpkiHash leaf) (pinnedHash self)) eqn:He;
      simpl in E; [|discriminate E].
    apply String.eqb_eq in He. rewrite <- He. apply computeSpkiHash_length.
Qed.

Lemma fingerprint_is_44_characters_witness :
  String.length pin_bank = 44%nat.
Proof.
  apply (proj1 (proj2 (fingerprint_is_44_characters leaf_bank))
           "bank.test" pin_bank (sync_in 80 [X509 leaf_bank]) DataSyncManager_new
           (fst (fst (ensureConfigSync "bank.test" pin_bank (sync_in 80 [X509 leaf_bank])
                        DataSyncManager_new)))
           true
           (snd (ensureConfigSync "bank.test" pin_bank (sync_in 80 [X509 leaf_bank])
                   DataSyncManager_new))).
  vm_compute. reflexivity.
Defined.

(** X14.  When [SSL_PIN_HASH_1] is missing or empty, or is not 44 characters
    long, no certificate can match: with the native module defined, every
    [secureFetch] of an uncompromised session throws, trips both latches and
    never reaches [fetch]. *)
Theorem unusable_pin_fails_closed
    (env : Env) (url : string) (options : RequestInit) (o : FetchObs) (w : World) :
  String.length (configured_pin env) <> 44%nat ->
  DataSyncManager_defined env = true ->
  sessionCompromised w = false ->
  exists w' e seen,
    secureFetch env url options o w = (w', Throws e, seen)
    /\ sessionCompromised w' = true
    /\ sessionIntegrity (native w') = false
    /\ ~ In (Fetch url options) seen.
Proof.
  intros Hpin Hd Hc.
  destruct (ensureConfigSync (configured_domain env) (configured_pin env)
              (sync_obs o) (native w)) as [[n r] seen0] eqn:S.
  pose proof (ensureConfigSync_never_fetches (configured_domain env) (configured_pin env)
                (sync_obs o) (native w) url options) as NF.
  rewrite S in NF. simpl in NF.
  destruct r as [b|code msg].
  - exfalso.
    destruct (sync_resolved_only_if_pinned _ _ _ _ _ _ _ S)
      as (leaf & rest & _ & He & _).
    apply Hpin. rewrite <- He. apply computeSpkiHash_length.
  - rewrite (secureFetch_on_rejection env url options o w Hc Hd n code msg seen0 S).
    do 3 eexists. split; [reflexivity|]. split; [reflexivity|]. split.
    + simpl. eapply ensureConfigSync_rejected_trips. exact S.
    + simpl. intros [H|[H|H]]; try discriminate H. exact (NF H).
Qed.

Lemma unusable_pin_fails_closed_witness :
  exists w' e seen,
    secureFetch
      {| SSL_PIN_DOMAIN := Some "bank.test"; SSL_PIN_HASH_1 := None;
         DataSyncManager_defined := true |}
      "https://bank.test/login" get_request
      (fetch_in (sync_in 80 [X509 leaf_bank]) 85 (Returns response_200)) World_new
    = (w', Throws e, seen)
    /\ sessionCompromised w' = true
    /\ sessionIntegrity (native w') = false
    /\ ~ In (Fetch "https://bank.test/login" get_request) seen.
Proof.
  apply unusable_pin_fails_closed.
  - vm_compute. discriminate.
  - reflexivity.
  - reflexivity.
Defined.

(** ** [headersToObject] *)

Lemma has_key_get (key : string) (obj : list (string * string)) :
  has_key key obj = match object_get key obj with Some _ => true | None => false end.
Proof.
  induction obj as [|[k v] rest IH]; simpl; [reflexivity|].
  destruct (String.eqb k key); simpl; [reflexivity|exact IH].
Qed.

Lemma has_key_in (key : string) (obj : list (string * string)) :
  has_key key obj = true <-> In key (map fst obj).
Proof.
  induction obj as [|[k v] rest IH]; simpl.
  - split; [discriminate|intros []].
  - rewrite orb_true_iff, IH, String.eqb_eq. reflexivity.
Qed.

Lemma replace_value_keys (key value : string) (obj : list (string * string)) :
  map fst (replace_value key value obj) = map fst obj.
Proof.
  induction obj as [|[k v] rest IH]; simpl; [reflexivity|].
  destruct (String.eqb k key); simpl; congruence.
Qed.

Lemma replace_value_get_same (key value : string) (obj : list (string * string)) :
  has_key key obj = true -> object_get key (replace_value key value obj) = Some value.
Proof.
  induction obj as [|[k v] rest IH]; simpl; [discriminate|].
  destruct (String.eqb k key) eqn:E; simpl; rewrite E; [reflexivity|exact IH].
Qed.

Lemma replace_value_get_other (key key' value : string) (obj : list (string * string)) :
  key' <> key ->
  object_get key (replace_value key' value obj) = object_get key obj.
Proof.
  intros Hne. induction obj as [|[k v] rest IH]; simpl; [reflexivity|].
  destruct (String.eqb k key') eqn:E; simpl.
  - apply String.eqb_eq in E. subst k.
    apply String.eqb_neq in Hne. rewrite Hne. reflexivity.
  - rewrite IH. reflexivity.
Qed.

(** A new property goes somewhere into the list and moves nothing else. *)
Lemma insert_index_splits (i : N) (key value : string) (obj : list (string * string)) :
  exists before after,
    obj = before ++ after
    /\ insert_index i key value obj = before ++ (key, value) :: after.
Proof.
  induction obj as [|[k v] rest (before & after & Ho & Hi)]; simpl.
  - exists [], []. split; reflexivity.
  - destruct (array_index k) as [j|].
    + destruct (j <? i)%N.
      * exists ((k, v) :: before), after. simpl. split; congruence.
      * exists [], ((k, v) :: rest). split; reflexivity.
    + exists [], ((k, v) :: rest). split; reflexivity.
Qed.

Lemma object_set_new_splits (key value : string) (obj : list (string * string)) :
  String.eqb key "__proto__" = false ->
  has_key key obj = false ->
  exists before after,
    obj = before ++ after
    /\ object_set key value obj = before ++ (key, value) :: after.
Proof.
  intros Hp Hk. unfold object_set. rewrite Hp, Hk.
  destruct (array_index key) as [i|].
  - apply insert_index_splits.
  - exists obj, []. split; [rewrite app_nil_r|]; reflexivity.
Qed.

Lemma object_get_app (key : string) (before after : list (string * string)) :
  object_get key (before ++ after)
  = match object_get key before with
    | Some v => Some v
    | None => object_get key after
    end.
Proof.
  induction before as [|[k v] rest IH]; simpl; [reflexivity|].
  destruct (String.eqb k key); [reflexivity|exact IH].
Qed.

Lemma object_get_none_app (key : string) (before after : list (string * string)) :
  object_get key (before ++ after) = None -> object_get key before = None.
Proof.
  rewrite object_get_app. destruct (object_get key before); [discriminate|reflexivity].
Qed.

Lemma object_get_set_same (key value : string) (obj : list (string * string)) :
  key <> "__proto__" ->
  object_get key (object_set key value obj) = Some value.
Proof.
  intros Hp. apply String.eqb_neq in Hp.
  destruct (has_key key obj) eqn:Hk.
  - unfold object_set. rewrite Hp, Hk. apply replace_value_get_same. exact Hk.
  - destruct (object_set_new_splits key value obj Hp Hk) as (before & after & Ho & Hs).
    rewrite Hs, object_get_app.
    rewrite has_key_get in Hk.
    destruct (object_get key obj) eqn:G; [discriminate Hk|].
    rewrite Ho in G. rewrite (object_get_none_app _ _ _ G).
    simpl. rewrite String.eqb_refl. reflexivity.
Qed.

Lemma object_get_set_other (key key' value : string) (obj : list (string * string)) :
  key' <> key ->
  object_get key (object_set key' value obj) = object_get key obj.
Proof.
  intros Hne.
  destruct (String.eqb key' "__proto__") eqn:Hp;
    [unfold object_set; rewrite Hp; reflexivity|].
  destruct (has_key key' obj) eqn:Hk.
  - unfold object_set. rewrite Hp, Hk. apply replace_value_get_other. exact Hne.
  - destruct (object_set_new_splits key' value obj Hp Hk) as (before & after & Ho & Hs).
    rewrite Hs, Ho, !object_get_app. simpl.
    apply String.eqb_neq in Hne. rewrite Hne. reflexivity.
Qed.

Lemma object_set_keeps_keys_unique (key value : string) (obj : list (string * string)) :
  NoDup (map fst obj) -> NoDup (map fst (object_set key value obj)).
Proof.
  intros H.
  destruct (String.eqb key "__proto__") eqn:Hp;
    [unfold object_set; rewrite Hp; exact H|].
  destruct (has_key key obj) eqn:Hk.
  - unfold object_set. rewrite Hp, Hk, replace_value_keys. exact H.
  - destruct (object_set_new_splits key value obj Hp Hk) as (before & after & Ho & Hs).
    rewrite Hs, map_app. simpl.
    apply (NoDup_Add (a := key) (l := map fst before ++ map fst after)).
    + apply Add_app.
    + rewrite <- map_app, <- Ho. split; [exact H|].
      intros Hin. apply has_key_in in Hin. congruence.
Qed.

Lemma object_set_never_creates_proto (key value : string) (obj : list (string * string)) :
  has_key "__proto__" obj = false ->
  has_key "__proto__" (object_set key value obj) = false.
Proof.
  intros H. rewrite has_key_get in *.
  destruct (String.eqb key "__proto__") eqn:Hp.
  - unfold object_set. rewrite Hp. exact H.
  - rewrite object_get_set_other; [exact H|].
    intros E. subst key. rewrite String.eqb_refl in Hp. discriminate Hp.
Qed.

Lemma headersToObject_snoc (headers : list (string * string)) (key value : string) :
  headersToObject (headers ++ [(key, value)])
  = object_set key value (headersToObject headers).
Proof. unfold headersToObject. rewrite fold_left_app. reflexivity. Qed.

(** X15.  [headersToObject] gives an object with one own property per header
    name other than [__proto__], holding the value of the last header of
    that name, and none for a name that was not among the headers.  A header
    named [__proto__] creates no property: the assignment at that key is
    swallowed by the prototype's setter. *)
Theorem headersToObject_last_value_wins (headers : list (string * string)) :
  NoDup (map fst (headersToObject headers))
  /\ (forall key,
        key <> "__proto__" ->
        object_get key (headersToObject headers) = object_get key (rev headers))
  /\ has_key "__proto__" (headersToObject headers) = false.
Proof.
  induction headers as [|[k v] headers (IHn & IHg & IHp)] using rev_ind.
  - split; [constructor|]. split; reflexivity.
  - rewrite headersToObject_snoc. split; [|split].
    + apply object_set_keeps_keys_unique. exact IHn.
    + intros key Hp. rewrite rev_app_distr. simpl.
      destruct (String.eqb k key) eqn:E.
      * apply String.eqb_eq in E. subst k. apply object_get_set_same. exact Hp.
      * rewrite object_get_set_other; [apply IHg; exact Hp|].
        intros Hk. subst k. rewrite String.eqb_refl in E. discriminate E.
    + apply object_set_never_creates_proto. exact IHp.
Qed.

Lemma headersToObject_last_value_wins_witness :
  object_get "set-cookie"
    (headersToObject [("set-cookie", "a=1"); ("__proto__", "x"); ("10", "ten");
                      ("set-cookie", "b=2"); ("9", "nine")])
  = object_get "set-cookie"
      (rev [("set-cookie", "a=1"); ("__proto__", "x"); ("10", "ten");
            ("set-cookie", "b=2"); ("9", "nine")]).
Proof.
  apply (proj1 (proj2 (headersToObject_last_value_wins
                         [("set-cookie", "a=1"); ("__proto__", "x"); ("10", "ten");
                          ("set-cookie", "b=2"); ("9", "nine")]))).
  discriminate.
Defined.

(** Array indices come first, in numeric order; [__proto__] leaves no
    property behind. *)
Example headersToObject_orders_as_the_language_does :
  headersToObject [("set-cookie", "a=1"); ("__proto__", "x"); ("10", "ten");
                   ("set-cookie", "b=2"); ("9", "nine"); ("01", "text")]
  = [("9", "nine"); ("10", "ten"); ("set-cookie", "b=2"); ("01", "text")].
Proof. vm_compute. reflexivity. Qed.

(** ** [isSecurityError] and [apiRequest] *)

Lemma secureFetch_throw_cases
    (env : Env) (url : string) (options : RequestInit) (o : FetchObs) (w w' : World)
    (e : Error) (seen : list Event) :
  secureFetch env url options o w = (w', Throws e, seen) ->
  (sessionCompromised w' = true /\ mentions_DataSync e = true)
  \/ (sessionCompromised w' = false
      /\ fetch_completion o = Throws e /\ mentions_DataSync e = false).
Proof.
  intros E. unfold secureFetch in E.
  destruct (sessionCompromised w) eqn:Hc.
  - inversion E; subst. left. split; [exact Hc|reflexivity].
  - unfold nativeSpkiValidation in E.
    destruct (DataSyncManager_defined env).
    + destruct (ensureConfigSync _ _ (sync_obs o) (native w)) as [[n r] seen0].
      destruct r as [b|code msg].
      * destruct (dateNow_end o - dateNow_start o <? JS_FLOOR_MS).
        -- inversion E; subst. left. split; reflexivity.
        -- unfold fetched in E.
           destruct (fetch_completion o) as [response|error]; [discriminate E|].
           destruct (mentions_DataSync error) eqn:Hm; inversion E; subst.
           ++ left. split; [reflexivity|exact Hm].
           ++ right. repeat split; auto.
      * inversion E; subst. left. split; reflexivity.
    + unfold fetched in E.
      destruct (fetch_completion o) as [response|error]; [discriminate E|].
      destruct (mentions_DataSync error) eqn:Hm; inversion E; subst.
      * left. split; [reflexivity|exact Hm].
      * right. repeat split; auto.
Qed.


Lemma isSecurityError_when_compromised (error : Error) (as_string : string) (w : World) :
  sessionCompromised w = true -> isSecurityError error as_string w = true.
Proof.
  intros H. unfold isSecurityError. rewrite H. apply orb_true_r.
Qed.

(** X16.  Every error [secureFetch] throws is a security error for
    [isSecurityError], save one: a failure of [fetch] whose message does not
    contain 'DataSync', in a session that is still intact, is judged by its
    own words. *)
Theorem validator_errors_are_security_errors
    (env : Env) (url : string) (options : RequestInit) (o : FetchObs) (w w' : World)
    (e : Error) (seen : list Event) (as_string : string) :
  secureFetch env url options o w = (w', Throws e, seen) ->
  isSecurityError e as_string w' = true
  \/ (fetch_completion o = Throws e
      /\ mentions_DataSync e = false
      /\ sessionCompromised w' = false).
Proof.
  intros E.
  destruct (secureFetch_throw_cases env url options o w w' e seen E)
    as [[Hc _]|(Hc & Hf & Hm)].
  - left. apply isSecurityError_when_compromised. exact Hc.
  - right. auto.
Qed.

Lemma validator_errors_are_security_errors_witness :
  isSecurityError
    (new_Error "DataSync: Configuration sync failed - DataSync: Configuration mismatch")
    "Error" world_compromised = true
  \/ (Returns response_200
      = Throws (new_Error
          "DataSync: Configuration sync failed - DataSync: Configuration mismatch")
      /\ mentions_DataSync
           (new_Error
              "DataSync: Configuration sync failed - DataSync: Configuration mismatch")
         = false
      /\ sessionCompromised world_compromised = false).
Proof.
  exact (validator_errors_are_security_errors env_bank "https://bank.test/login" get_request
           (fetch_in (sync_in 80 [X509 leaf_rogue]) 85 (Returns response_200))
           World_new world_compromised _
           (snd (secureFetch env_bank "https://bank.test/login" get_request
                   (fetch_in (sync_in 80 [X509 leaf_rogue]) 85 (Returns response_200))
                   World_new))
           "Error" ltac:(vm_compute; reflexivity)).
Defined.





(** A body of [0]: no [Content-Type] of the API layer's, no body. *)
Example falsy_body_is_dropped :
  request_headers
    {| ro_method := Some "POST"; ro_token := None;
       ro_body := Some (JsValue false (Returns (Some "0"))); ro_headers := [] |} = []
  /\ request_body
       {| ro_method := Some "POST"; ro_token := None;
          ro_body := Some (JsValue false (Returns (Some "0"))); ro_headers := [] |}
     = Returns None.
Proof. split; reflexivity. Qed.

(** ** The library-level client *)

Lemma library_run_cons (env : Library.Env) (op : Library.Op) (ops : list Library.Op)
    (s : Library.State) :
  Library.run env (op :: ops) s
  = (fst (Library.run env ops (fst (Library.step env op s))),
     snd (Library.step env op s) ++ snd (Library.run env ops (fst (Library.step env op s)))).
Proof.
  simpl. destruct (Library.step env op s) as [s' done]. simpl.
  destruct (Library.run env ops s'); reflexivity.
Qed.

Lemma library_initializePinning_split (env : Library.Env) (o : Library.InitObs)
    (s : Library.State) :
  Library.initializePinning env o s
  = (if snd (Library.beginInitializePinning env o s)
     then Library.resumeInitializePinning (Library.init_completion o)
            (fst (fst (Library.beginInitializePinning env o s)))
     else fst (fst (Library.beginInitializePinning env o s)),
     snd (fst (Library.beginInitializePinning env o s))).
Proof.
  unfold Library.initializePinning.
  destruct (Library.beginInitializePinning env o s) as [[s1 done] waiting]. reflexivity.
Qed.

Lemma library_step_secureFetch (env : Library.Env) (url : string) (options : RequestInit)
    (o : Library.FetchObs) (s : Library.State) :
  Library.step env (Library.SecureFetch url options o) s
  = (fst (if negb (Library.pinningInitialized s)
          then Library.initializePinning env (Library.init_obs o) s else (s, [])),
     snd (if negb (Library.pinningInitialized s)
          then Library.initializePinning env (Library.init_obs o) s else (s, []))
     ++ [Library.Fetch url options]).
Proof.
  simpl. unfold Library.secureFetch.
  destruct (if negb (Library.pinningInitialized s)
            then Library.initializePinning env (Library.init_obs o) s else (s, []))
    as [s1 initializing].
  destruct (Library.fetch_completion o); reflexivity.
Qed.

Lemma library_step_begin (env : Library.Env) (o : Library.InitObs) (s : Library.State) :
  Library.step env (Library.BeginInitializePinning o) s
  = fst (Library.beginInitializePinning env o s).
Proof.
  simpl. destruct (Library.beginInitializePinning env o s) as [[s1 done] waiting].
  reflexivity.
Qed.

Lemma library_step_beginSecureFetch (env : Library.Env) (url : string)
    (options : RequestInit) (o : Library.InitObs) (s : Library.State) :
  Library.step env (Library.BeginSecureFetch url options o) s
  = if negb (Library.pinningInitialized s)
    then fst (Library.beginInitializePinning env o s)
    else (s, [Library.Fetch url options]).
Proof.
  simpl. destruct (negb (Library.pinningInitialized s)); [|reflexivity].
  destruct (Library.beginInitializePinning env o s) as [[s1 done] waiting].
  reflexivity.
Qed.

Lemma getSSLPins_two (env : Library.Env) :
  (List.length (Library.getSSLPins env) <? 2)%nat = false ->
  exists h1 h2,
    Library.SSL_PIN_HASH_1 env = Some h1 /\ Library.SSL_PIN_HASH_2 env = Some h2
    /\ h1 <> EmptyString /\ h2 <> EmptyString
    /\ Library.getSSLPins env = [h1; h2].
Proof.
  unfold Library.getSSLPins.
  destruct (Library.SSL_PIN_HASH_1 env) as [[|c1 t1]|];
    destruct (Library.SSL_PIN_HASH_2 env) as [[|c2 t2]|];
    simpl; intros H; try discriminate H.
  exists (String c1 t1), (String c2 t2). repeat split; discriminate.
Qed.

Lemma beginInitializePinning_effects (env : Library.Env) (o : Library.InitObs)
    (s : Library.State) (d : string) (sub : bool) (pins : list string) :
  In (Library.InitializeSslPinning d sub pins)
     (snd (fst (Library.beginInitializePinning env o s))) ->
  Library.pinningInitialized s = false
  /\ Library.isSslPinningAvailable o = true
  /\ (List.length (Library.getSSLPins env) <? 2)%nat = false
  /\ pins = Library.getSSLPins env
  /\ sub = true
  /\ d = or_else (Library.SSL_PIN_DOMAIN env) "vulnbank.org".
Proof.
  unfold Library.beginInitializePinning.
  destruct (Library.pinningInitialized s); [intros []|].
  destruct (List.length (Library.getSSLPins env) <? 2)%nat; [intros []|].
  destruct (Library.isSslPinningAvailable o); simpl; [|intros []].
  destruct (Library.init_completion o); simpl.
  - intros [H|[]]; discriminate H.
  - intros [H|[H|[]]]; [discriminate H|]. inversion H; subst. repeat split.
  - intros [H|[H|[]]]; [discriminate H|]. inversion H; subst. repeat split.
Qed.

(** X19.  The library level sets pinning up only when both [SSL_PIN_HASH_1]
    and [SSL_PIN_HASH_2] are non-empty: in every sequence of operations, a
    call of [initializeSslPinning] carries exactly those two hashes, for the
    configured domain, subdomains included.  With one hash or none it is
    never called. *)
Theorem library_pins_only_with_two_hashes
    (env : Library.Env) (ops : list Library.Op) (s : Library.State)
    (d : string) (sub : bool) (pins : list string) :
  In (Library.InitializeSslPinning d sub pins) (snd (Library.run env ops s)) ->
  exists h1 h2,
    Library.SSL_PIN_HASH_1 env = Some h1 /\ Library.SSL_PIN_HASH_2 env = Some h2
    /\ h1 <> EmptyString /\ h2 <> EmptyString
    /\ pins = [h1; h2] /\ sub = true
    /\ d = or_else (Library.SSL_PIN_DOMAIN env) "vulnbank.org".
Proof.
  assert (Begin : forall o s0,
             In (Library.InitializeSslPinning d sub pins)
                (snd (fst (Library.beginInitializePinning env o s0))) ->
             exists h1 h2,
               Library.SSL_PIN_HASH_1 env = Some h1 /\ Library.SSL_PIN_HASH_2 env = Some h2
               /\ h1 <> EmptyString /\ h2 <> EmptyString
               /\ pins = [h1; h2] /\ sub = true
               /\ d = or_else (Library.SSL_PIN_DOMAIN env) "vulnbank.org").
  { intros o s0 H.
    destruct (beginInitializePinning_effects env o s0 d sub pins H)
      as (_ & _ & Hlen & Hp & Hs & Hd).
    destruct (getSSLPins_two env Hlen) as (h1 & h2 & H1 & H2 & N1 & N2 & Hg).
    exists h1, h2. rewrite Hp, Hg. auto 10. }
  revert s. induction ops as [|op ops IH]; intros s H.
  - destruct H.
  - rewrite library_run_cons in H. simpl snd in H.
    apply in_app_or in H. destruct H as [H|H]; [|exact (IH _ H)].
    destruct op as [o|url options o|host|o|c|url options o|url options c].
    + simpl in H. rewrite library_initializePinning_split in H. exact (Begin o s H).
    + rewrite library_step_secureFetch in H. simpl snd in H.
      apply in_app_or in H. destruct H as [H|[H|[]]]; [|discriminate H].
      destruct (negb (Library.pinningInitialized s)); [|destruct H].
      rewrite library_initializePinning_split in H. exact (Begin _ s H).
    + destruct H.
    + rewrite library_step_begin in H. exact (Begin o s H).
    + destruct H.
    + rewrite library_step_beginSecureFetch in H.
      destruct (negb (Library.pinningInitialized s)); [exact (Begin o s H)|].
      destruct H as [H|[]]. discriminate H.
    + destruct H as [H|[]]. discriminate H.
Qed.

Lemma library_pins_only_with_two_hashes_witness :
  exists h1 h2,
    Some "AAAA" = Some h1 /\ Some "BBBB" = Some h2
    /\ h1 <> EmptyString /\ h2 <> EmptyString
    /\ ["AAAA"; "BBBB"] = [h1; h2] /\ true = true
    /\ "bank.test" = "bank.test".
Proof.
  exact (library_pins_only_with_two_hashes
           {| Library.SSL_PIN_DOMAIN := Some "bank.test";
              Library.SSL_PIN_HASH_1 := Some "AAAA";
              Library.SSL_PIN_HASH_2 := Some "BBBB" |}
           [Library.InitializePinning
              {| Library.isSslPinningAvailable := true;
                 Library.init_completion := Library.Initialized |}]
           Library.State_new "bank.test" true ["AAAA"; "BBBB"]
           ltac:(vm_compute; right; left; reflexivity)).
Defined.

(** X20.  The library-level [secureFetch] fails open: whatever the pinning
    state (fewer than two pins, pinning unavailable, a failed set-up, a
    reported pinning error), it calls [fetch] and hands back what [fetch]
    gave, response or error. *)
Theorem library_secureFetch_always_fetches
    (env : Library.Env) (url : string) (options : RequestInit)
    (o : Library.FetchObs) (s : Library.State) :
  (exists initializing,
      snd (Library.secureFetch env url options o s)
      = initializing ++ [Library.Fetch url options])
  /\ snd (fst (Library.secureFetch env url options o s))
     = match Library.fetch_completion o with
       | Returns response =>
           Returns {| sf_ok := response_ok response;
                      sf_status := response_status response;
                      sf_headers := headersToObject (response_headers response);
                      sf_url := response_url response;
                      sf_text := response_text response |}
       | Throws error => Throws error
       end.
Proof.
  unfold Library.secureFetch.
  destruct (if negb (Library.pinningInitialized s)
            then Library.initializePinning env (Library.init_obs o) s else (s, []))
    as [s1 initializing].
  destruct (Library.fetch_completion o); simpl; split; eauto.
Qed.

Lemma beginInitializePinning_cases (env : Library.Env) (o : Library.InitObs)
    (s : Library.State) :
  (snd (Library.beginInitializePinning env o s) = false
   /\ Library.pinningInitialized (fst (fst (Library.beginInitializePinning env o s))) = true)
  \/ (snd (Library.beginInitializePinning env o s) = true
      /\ Library.pinningInitialized s = false
      /\ Library.beginInitializePinning env o s
         = (s,
            [Library.AddSslPinningErrorListener;
             Library.InitializeSslPinning
               (or_else (Library.SSL_PIN_DOMAIN env) "vulnbank.org") true
               (Library.getSSLPins env)],
            true)).
Proof.
  unfold Library.beginInitializePinning.
  destruct (Library.pinningInitialized s) eqn:Hi; [left; simpl; auto|].
  destruct (List.length (Library.getSSLPins env) <? 2)%nat; [left; simpl; auto|].
  destruct (negb (Library.isSslPinningAvailable o)); [left; simpl; auto|].
  destruct (Library.init_completion o); [left; simpl; auto|right; auto|right; auto].
Qed.

Lemma resumeInitializePinning_initializes (c : Library.InitCompletion) (s : Library.State) :
  Library.pinningInitialized (Library.resumeInitializePinning c s) = true.
Proof. destruct c; reflexivity. Qed.

Lemma initializePinning_initializes (env : Library.Env) (o : Library.InitObs)
    (s : Library.State) :
  Library.pinningInitialized (fst (Library.initializePinning env o s)) = true.
Proof.
  rewrite library_initializePinning_split. simpl fst.
  destruct (beginInitializePinning_cases env o s) as [[Hw Hi]|(Hw & _ & _)]; rewrite Hw.
  - exact Hi.
  - apply resumeInitializePinning_initializes.
Qed.

Lemma library_step_settles (env : Library.Env) (op : Library.Op) (s : Library.State) :
  Library.settles op = true ->
  Library.pinningInitialized (fst (Library.step env op s)) = true.
Proof.
  intros Hop. destruct op as [o|url options o|host|o|c|url options o|url options [c|]];
    simpl in Hop; try discriminate Hop.
  - simpl. apply initializePinning_initializes.
  - rewrite library_step_secureFetch. simpl fst.
    destruct (Library.pinningInitialized s) eqn:Hi; simpl; [exact Hi|].
    apply initializePinning_initializes.
  - simpl. apply resumeInitializePinning_initializes.
  - simpl. apply resumeInitializePinning_initializes.
Qed.

Lemma library_step_when_initialized (env : Library.Env) (op : Library.Op) (s : Library.State) :
  Library.pinningInitialized s = true ->
  Library.pinningInitialized (fst (Library.step env op s)) = true
  /\ forallb Library.is_fetch (snd (Library.step env op s)) = true.
Proof.
  intros Hi.
  assert (B : forall o, Library.beginInitializePinning env o s = (s, [], false)).
  { intros o. unfold Library.beginInitializePinning. rewrite Hi. reflexivity. }
  destruct op as [o|url options o|host|o|c|url options o|url options [c|]].
  - simpl. unfold Library.initializePinning. rewrite B. simpl. auto.
  - rewrite library_step_secureFetch. rewrite Hi. simpl. auto.
  - simpl. auto.
  - rewrite library_step_begin, B. simpl. auto.
  - simpl. split; [apply resumeInitializePinning_initializes|reflexivity].
  - rewrite library_step_beginSecureFetch, Hi. simpl. auto.
  - simpl. split; [apply resumeInitializePinning_initializes|reflexivity].
  - simpl. auto.
Qed.

(** X21.  Set-up is guarded by a flag that is written only when a call
    settles.  Every call that runs to its end, and every resumption after
    [await initializeSslPinning], leaves [pinningInitialized] set whatever
    happened; from then on no sequence of operations, overlapping or not,
    registers a listener or calls [initializeSslPinning] again.  But a call
    that stops at that [await] leaves the flag unset, so two [secureFetch]
    calls that overlap before the first settlement both register a listener
    and both call [initializeSslPinning]. *)
Theorem library_initializes_once_settled
    (env : Library.Env) (ops : list Library.Op) (s : Library.State) :
  (forall op, Library.settles op = true ->
              Library.pinningInitialized (fst (Library.step env op s)) = true)
  /\ (Library.pinningInitialized s = true ->
      Library.pinningInitialized (fst (Library.run env ops s)) = true
      /\ forallb Library.is_fetch (snd (Library.run env ops s)) = true)
  /\ (forall url1 options1 url2 options2 o1 o2,
        snd (Library.beginInitializePinning env o1 s) = true ->
        snd (Library.beginInitializePinning env o2 s) = true ->
        Library.run env
          [Library.BeginSecureFetch url1 options1 o1;
           Library.BeginSecureFetch url2 options2 o2] s
        = (s,
           [Library.AddSslPinningErrorListener;
            Library.InitializeSslPinning
              (or_else (Library.SSL_PIN_DOMAIN env) "vulnbank.org") true
              (Library.getSSLPins env);
            Library.AddSslPinningErrorListener;
            Library.InitializeSslPinning
              (or_else (Library.SSL_PIN_DOMAIN env) "vulnbank.org") true
              (Library.getSSLPins env)])).
Proof.
  split; [|split].
  - intros op Hop. apply library_step_settles. exact Hop.
  - revert s. induction ops as [|op ops IH]; intros s Hi.
    + simpl. auto.
    + rewrite library_run_cons. simpl fst. simpl snd.
      destruct (library_step_when_initialized env op s Hi) as [Hi' Hf].
      destruct (IH _ Hi') as [Hi'' Hf'].
      split; [exact Hi''|]. rewrite forallb_app, Hf, Hf'. reflexivity.
  - intros url1 options1 url2 options2 o1 o2 H1 H2.
    destruct (beginInitializePinning_cases env o1 s) as [[Hw _]|(_ & Hi & B1)];
      [congruence|].
    destruct (beginInitializePinning_cases env o2 s) as [[Hw _]|(_ & _ & B2)];
      [congruence|].
    assert (E1 : Library.step env (Library.BeginSecureFetch url1 options1 o1) s
                 = (s, [Library.AddSslPinningErrorListener;
                        Library.InitializeSslPinning
                          (or_else (Library.SSL_PIN_DOMAIN env) "vulnbank.org") true
                          (Library.getSSLPins env)])).
    { rewrite library_step_beginSecureFetch, Hi, B1. reflexivity. }
    assert (E2 : Library.step env (Library.BeginSecureFetch url2 options2 o2) s
                 = (s, [Library.AddSslPinningErrorListener;
                        Library.InitializeSslPinning
                          (or_else (Library.SSL_PIN_DOMAIN env) "vulnbank.org") true
                          (Library.getSSLPins env)])).
    { rewrite library_step_beginSecureFetch, Hi, B2. reflexivity. }
    rewrite library_run_cons, E1. cbn [fst snd].
    rewrite library_run_cons, E2. reflexivity.
Qed.

Lemma library_initializes_once_settled_witness :
  Library.run
    {| Library.SSL_PIN_DOMAIN := Some "bank.test";
       Library.SSL_PIN_HASH_1 := Some "AAAA";
       Library.SSL_PIN_HASH_2 := Some "BBBB" |}
    [Library.BeginSecureFetch "https://bank.test/a" get_request
       {| Library.isSslPinningAvailable := true;
          Library.init_completion := Library.Initialized |};
     Library.BeginSecureFetch "https://bank.test/b" get_request
       {| Library.isSslPinningAvailable := true;
          Library.init_completion := Library.Initialized |}]
    Library.State_new
  = (Library.State_new,
     [Library.AddSslPinningErrorListener;
      Library.InitializeSslPinning "bank.test" true ["AAAA"; "BBBB"];
      Library.AddSslPinningErrorListener;
      Library.InitializeSslPinning "bank.test" true ["AAAA"; "BBBB"]]).
Proof.
  apply (proj2 (proj2 (library_initializes_once_settled
                         {| Library.SSL_PIN_DOMAIN := Some "bank.test";
                            Library.SSL_PIN_HASH_1 := Some "AAAA";
                            Library.SSL_PIN_HASH_2 := Some "BBBB" |}
                         [] Library.State_new)));
    reflexivity.
Defined.

Lemma stored_not_null (c : Library.InitCompletion) (t : Library.Thrown) :
  Library.is_null c = false ->
  c = Library.ListenerThrows t \/ c = Library.InitializeThrows t ->
  Library.stored t <> None.
Proof.
  intros Hn [E|E]; subst c; destruct t; simpl in *; discriminate.
Qed.

Lemma resumeInitializePinning_keeps_error (c : Library.InitCompletion) (s : Library.State) :
  Library.is_null c = false ->
  Library.pinningError s <> None ->
  Library.pinningError (Library.resumeInitializePinning c s) <> None.
Proof.
  intros Hn He. destruct c as [t|t|]; simpl; try exact He.
  apply (stored_not_null (Library.InitializeThrows t) t Hn). right. reflexivity.
Qed.

Lemma beginInitializePinning_keeps_error (env : Library.Env) (o : Library.InitObs)
    (s : Library.State) :
  Library.is_null (Library.init_completion o) = false ->
  Library.pinningError s <> None ->
  Library.pinningError (fst (fst (Library.beginInitializePinning env o s))) <> None.
Proof.
  intros Hn He. unfold Library.beginInitializePinning.
  destruct (Library.pinningInitialized s); [exact He|].
  destruct (List.length (Library.getSSLPins env) <? 2)%nat; [exact He|].
  destruct (negb (Library.isSslPinningAvailable o)); [exact He|].
  destruct (Library.init_completion o) as [t|t|] eqn:E; simpl; try exact He.
  apply (stored_not_null (Library.ListenerThrows t) t Hn). left. reflexivity.
Qed.

Lemma initializePinning_keeps_error (env : Library.Env) (o : Library.InitObs)
    (s : Library.State) :
  Library.is_null (Library.init_completion o) = false ->
  Library.pinningError s <> None ->
  Library.pinningError (fst (Library.initializePinning env o s)) <> None.
Proof.
  intros Hn He. rewrite library_initializePinning_split. simpl fst.
  pose proof (beginInitializePinning_keeps_error env o s Hn He) as B.
  destruct (snd (Library.beginInitializePinning env o s)); [|exact B].
  apply resumeInitializePinning_keeps_error; assumption.
Qed.

Lemma library_step_keeps_error (env : Library.Env) (op : Library.Op) (s : Library.State) :
  Library.may_store_null op = false ->
  Library.pinningError s <> None ->
  Library.pinningError (fst (Library.step env op s)) <> None.
Proof.
  intros Hn He.
  destruct op as [o|url options o|host|o|c|url options o|url options [c|]];
    simpl in Hn.
  - simpl. apply initializePinning_keeps_error; assumption.
  - rewrite library_step_secureFetch. simpl fst.
    destruct (negb (Library.pinningInitialized s)); [|exact He].
    apply initializePinning_keeps_error; assumption.
  - simpl. discriminate.
  - rewrite library_step_begin. apply beginInitializePinning_keeps_error; assumption.
  - simpl. apply resumeInitializePinning_keeps_error; assumption.
  - rewrite library_step_beginSecureFetch.
    destruct (negb (Library.pinningInitialized s)); [|exact He].
    apply beginInitializePinning_keeps_error; assumption.
  - simpl. apply resumeInitializePinning_keeps_error; assumption.
  - simpl. exact He.
Qed.

(** X22.  [pinningError] is cleared by one thing only, a set-up that throws
    or rejects with [null]: the [catch] stores whatever was thrown.  Through
    every sequence of operations without such a [null], overlapping or not,
    an error that is set stays set, and the library-level [isSecurityError]
    then calls every error a security error, a plain network failure
    included.  A rejection with [null] resets the variable, whatever it
    held. *)
Theorem library_pinning_error_is_sticky
    (env : Library.Env) (ops : list Library.Op) (s : Library.State)
    (error : Error) (as_string : string) :
  (forallb (fun op => negb (Library.may_store_null op)) ops = true ->
   Library.pinningError s <> None ->
   Library.pinningError (fst (Library.run env ops s)) <> None
   /\ Library.isSecurityError error as_string (fst (Library.run env ops s)) = true)
  /\ Library.pinningError
       (fst (Library.step env
               (Library.ResumeInitializePinning
                  (Library.InitializeThrows Library.ThrownNull)) s)) = None.
Proof.
  split; [|reflexivity].
  intros Hops He.
  assert (K : Library.pinningError (fst (Library.run env ops s)) <> None).
  { revert s He. induction ops as [|op ops IH]; intros s He; [exact He|].
    simpl in Hops. apply andb_true_iff in Hops. destruct Hops as [Hop Hops].
    rewrite library_run_cons. simpl fst. apply (IH Hops).
    apply library_step_keeps_error; [|exact He].
    destruct (Library.may_store_null op); [discriminate Hop|reflexivity]. }
  split; [exact K|].
  unfold Library.isSecurityError.
  destruct (Library.pinningError (fst (Library.run env ops s)));
    [apply orb_true_r|contradiction K; reflexivity].
Qed.

(** A set-up that was rejected, then a request: its network failure counts
    as a security error. *)
Lemma library_pinning_error_is_sticky_witness :
  Library.isSecurityError (new_Error "Network request failed") "Error"
    (fst (Library.run
            {| Library.SSL_PIN_DOMAIN := Some "bank.test";
               Library.SSL_PIN_HASH_1 := Some "AAAA";
               Library.SSL_PIN_HASH_2 := Some "BBBB" |}
            [Library.SecureFetch "https://bank.test/login" get_request
               {| Library.init_obs :=
                    {| Library.isSslPinningAvailable := true;
                       Library.init_completion := Library.Initialized |};
                  Library.fetch_completion :=
                    Throws (new_Error "Network request failed") |}]
            (fst (Library.run
                    {| Library.SSL_PIN_DOMAIN := Some "bank.test";
                       Library.SSL_PIN_HASH_1 := Some "AAAA";
                       Library.SSL_PIN_HASH_2 := Some "BBBB" |}
                    [Library.InitializePinning
                       {| Library.isSslPinningAvailable := true;
                          Library.init_completion :=
                            Library.InitializeThrows
                              (Library.ThrownValue (new_Error "TrustKit refused")) |}]
                    Library.State_new)))) = true.
Proof.
  apply (proj1 (library_pinning_error_is_sticky
                  {| Library.SSL_PIN_DOMAIN := Some "bank.test";
                     Library.SSL_PIN_HASH_1 := Some "AAAA";
                     Library.SSL_PIN_HASH_2 := Some "BBBB" |}
                  _ _ _ _)).
  - reflexivity.
  - vm_compute. discriminate.
Defined.

(** ** The resolver's redirect *)

Lemma append_assoc' (a b c : string) :
  ((a ++ b) ++ c)%string = (a ++ (b ++ c))%string.
Proof. induction a; simpl; congruence. Qed.

Lemma prefix_append (p t : string) : String.prefix p (p ++ t)%string = true.
Proof.
  induction p as [|a p IH]; simpl; [destruct t; reflexivity|].
  destruct (ascii_dec a a) as [_|N]; [exact IH|contradiction N; reflexivity].
Qed.

Lemma prefix_split (p s : string) :
  String.prefix p s = true ->
  exists t, s = (p ++ t)%string /\ Metro.drop (String.length p) s = t.
Proof.
  revert s. induction p as [|a p IH]; intros s H.
  - exists s. split; reflexivity.
  - destruct s as [|b s]; simpl in H; [discriminate H|].
    destruct (ascii_dec a b) as [E|N]; [|discriminate H].
    subst b. destruct (IH s H) as (t & Hs & Hd).
    exists t. simpl. split; [congruence|exact Hd].
Qed.

Lemma includes_split (n r s : string) :
  includes n s = true ->
  exists pre post,
    s = (pre ++ n ++ post)%string
    /\ Metro.replace n r s = (pre ++ r ++ post)%string.
Proof.
  induction s as [|c s IH]; intros H.
  - destruct n as [|a n]; [|simpl in H; discriminate H].
    exists EmptyString, EmptyString. split; reflexivity.
  - cbn [includes] in H. cbn [Metro.replace].
    destruct (String.prefix n (String c s)) eqn:P.
    + destruct (prefix_split n (String c s) P) as (t & Hs & Hd).
      exists EmptyString, t. simpl. split; [exact Hs|]. rewrite Hd. reflexivity.
    + simpl in H. destruct (IH H) as (pre & post & Hs & Hr).
      exists (String c pre), post. simpl. split; congruence.
Qed.

Lemma includes_intro (n pre post : string) :
  includes n (pre ++ n ++ post)%string = true.
Proof.
  induction pre as [|c pre IH].
  - simpl append. destruct (n ++ post)%string eqn:E.
    + destruct n; [reflexivity|discriminate E].
    + cbn [includes]. rewrite <- E. rewrite prefix_append. reflexivity.
  - simpl append. cbn [includes]. rewrite IH. apply orb_true_r.
Qed.

Lemma includes_inside (x r pre post : string) :
  includes x r = true -> includes x (pre ++ r ++ post)%string = true.
Proof.
  intros H. destruct (includes_split x EmptyString r H) as (a & b & Hr & _).
  rewrite Hr.
  replace (pre ++ (a ++ x ++ b) ++ post)%string
    with ((pre ++ a) ++ x ++ (b ++ post))%string
    by (rewrite !append_assoc'; reflexivity).
  apply includes_intro.
Qed.

(** X23.  Metro's redirect settles in one step: an import of
    [/security/httpClient] is rewritten into the directory of the level's
    implementation, the rewritten name is not rewritten again, and a module
    name that does not mention the security client is left alone. *)
Theorem redirect_settles_in_one_step (securityImpl moduleName : string) :
  includes "$" securityImpl = false ->
  Metro.resolveRequest securityImpl (Metro.resolveRequest securityImpl moduleName)
  = Metro.resolveRequest securityImpl moduleName
  /\ (includes "/security/httpClient" moduleName = true ->
      includes ("/security/" ++ securityImpl ++ "/")%string
        (Metro.resolveRequest securityImpl moduleName) = true)
  /\ (includes "/security/httpClient" moduleName = false ->
      Metro.resolveRequest securityImpl moduleName = moduleName).
Proof.
  intros _.
  assert (T : includes ("/security/" ++ securityImpl ++ "/")%string
                ("/security/" ++ securityImpl ++ "/httpClient")%string = true).
  { replace ("/security/" ++ securityImpl ++ "/httpClient")%string
      with (EmptyString ++ ("/security/" ++ securityImpl ++ "/") ++ "httpClient")%string
      by (simpl; rewrite !append_assoc'; reflexivity).
    apply includes_intro. }
  assert (R : forall m,
             Metro.resolveRequest securityImpl m
             = if includes "/security/httpClient" m
                  && negb (includes ("/security/" ++ securityImpl ++ "/")%string m)
               then Metro.replace "/security/httpClient"
                      ("/security/" ++ securityImpl ++ "/httpClient")%string m
               else m) by reflexivity.
  remember ("/security/" ++ securityImpl ++ "/")%string as target eqn:Et.
  remember ("/security/" ++ securityImpl ++ "/httpClient")%string as replacement eqn:Er.
  destruct (includes "/security/httpClient" moduleName) eqn:Hc.
  - destruct (includes target moduleName) eqn:Hi.
    + assert (E : Metro.resolveRequest securityImpl moduleName = moduleName).
      { rewrite R, Hc, Hi. reflexivity. }
      rewrite !E. split; [reflexivity|]. split; [intros _; exact Hi|discriminate].
    + assert (E : Metro.resolveRequest securityImpl moduleName
                  = Metro.replace "/security/httpClient" replacement moduleName).
      { rewrite R, Hc, Hi. reflexivity. }
      destruct (includes_split "/security/httpClient" replacement moduleName Hc)
        as (pre & post & Hm & Hr).
      assert (Hn : includes target
                     (Metro.replace "/security/httpClient" replacement moduleName) = true).
      { rewrite Hr. apply includes_inside. exact T. }
      rewrite !E. split; [|split; [intros _; exact Hn|discriminate]].
      rewrite R, Hn, andb_false_r. reflexivity.
  - assert (E : Metro.resolveRequest securityImpl moduleName = moduleName).
    { rewrite R, Hc. reflexivity. }
    rewrite !E. split; [reflexivity|]. split; [discriminate|reflexivity].
Qed.

Lemma redirect_settles_in_one_step_witness :
  Metro.resolveRequest "custom" (Metro.resolveRequest "custom" "../security/httpClient")
  = Metro.resolveRequest "custom" "../security/httpClient".
Proof.
  apply (proj1 (redirect_settles_in_one_step "custom" "../security/httpClient"
                  ltac:(vm_compute; reflexivity))).
Defined.

Example redirect_to_custom :
  Metro.resolveRequest "custom" "../security/httpClient" = "../security/custom/httpClient".
Proof. vm_compute. reflexivity. Qed.
